(** * Fitting galaxy density profiles: the notebook's model, data generator
      and fit statistic

    The development follows [fitting_galaxy_profiles.ipynb]:

    - [model]        the Hubble surface-brightness profile on a flat background
                     (notebook cell 3);
    - [data_cell]    grid construction, Poisson counts, expansion of the counts
                     image into event positions and their jitter (cell 5);
    - [binned_nll]   the binned Poisson negative log-likelihood (cell 6).

    Numbers.  The notebook computes with numpy's [float64].  The arithmetic
    is an interface ([Float64]) with two instances.  [xfloat] is float64
    without rounding: a finite value carries an exact real number, and the
    special values of IEEE 754 are kept, because numpy does not raise on a
    division by zero or on the logarithm of a non-positive number: it
    returns an infinity or a NaN and goes on.  Signed zeros are merged into
    one zero, taken as [+0].  Statements about all inputs are proved on
    [xfloat], or for every instance of the interface.  The second instance is
    Rocq's primitive binary64 [float], on which the same definitions run bit
    for bit; it serves for concrete evaluations.

    Randomness.  The outcome of [np.random.poisson] and the unit samples
    behind [np.random.uniform] are arguments of the data cell.

    State.  The cells communicate through global names bound to objects,
    numbers and arrays; [data_cell] and [binned_nll] are computations on a
    heap of objects and a map from names to addresses.  The names of
    functions and modules ([model], [np]) are resolved where the
    definitions are written and are not looked up in the state.

    Failure.  A computation that raises has no result.  numpy refuses an
    array that does not fit the address space, and the machine may refuse
    one earlier; the arrays here have no such limit, so that the data cell
    returns here whenever it returns in the notebook.  What is stated about
    the arrays of the data cell is stated for a cell that has returned. *)

From Stdlib Require Import Reals Lra Lia ZArith QArith Qreals List Bool.
From Stdlib Require Import Floats.PrimFloat Floats.SpecFloat Floats.FloatOps.
From Stdlib Require Import Numbers.Cyclic.Int63.Uint63.
From stdpp Require Import base option list gmap strings.

(** ** float64 values without rounding *)

Inductive xfloat : Type :=
  | Fin (r : R)
  | PInf
  | NInf
  | NaN.

Module XFloat.

(** Sign of a real, as a comparison with zero. *)
Definition Rsign (r : R) : comparison :=
  if Rlt_dec 0 r then Gt else if Rlt_dec r 0 then Lt else Eq.

(** Sign of a non-NaN value; the single zero counts as positive zero when
    it is a divisor (see [div]). *)
Definition sign (x : xfloat) : comparison :=
  match x with
  | Fin r => Rsign r
  | PInf => Gt
  | NInf => Lt
  | NaN => Eq
  end.

Definition mul_sign (a b : comparison) : comparison :=
  match a, b with
  | Eq, _ | _, Eq => Eq
  | Gt, Gt | Lt, Lt => Gt
  | _, _ => Lt
  end.

(** The infinity of a given sign; no sign (0 * inf, 0 / 0) gives NaN. *)
Definition inf_of_sign (c : comparison) : xfloat :=
  match c with
  | Gt => PInf
  | Lt => NInf
  | Eq => NaN
  end.

Definition neg (x : xfloat) : xfloat :=
  match x with
  | Fin r => Fin (- r)
  | PInf => NInf
  | NInf => PInf
  | NaN => NaN
  end.

Definition add (x y : xfloat) : xfloat :=
  match x, y with
  | NaN, _ | _, NaN => NaN
  | Fin a, Fin b => Fin (a + b)
  | PInf, NInf | NInf, PInf => NaN
  | PInf, _ | _, PInf => PInf
  | NInf, _ | _, NInf => NInf
  end.

Definition sub (x y : xfloat) : xfloat := add x (neg y).

Definition mul (x y : xfloat) : xfloat :=
  match x, y with
  | NaN, _ | _, NaN => NaN
  | Fin a, Fin b => Fin (a * b)
  | _, _ => inf_of_sign (mul_sign (sign x) (sign y))
  end.

Definition div (x y : xfloat) : xfloat :=
  match x, y with
  | NaN, _ | _, NaN => NaN
  | Fin a, Fin b =>
      if Req_dec_T b 0 then inf_of_sign (Rsign a) else Fin (a / b)
  | Fin _, _ => Fin 0
  | _, Fin b =>
      inf_of_sign (mul_sign (sign x) (if Req_dec_T b 0 then Gt else Rsign b))
  | _, _ => NaN
  end.

Definition sqrt (x : xfloat) : xfloat :=
  match x with
  | Fin a => if Rlt_dec a 0 then NaN else Fin (R_sqrt.sqrt a)
  | PInf => PInf
  | NInf | NaN => NaN
  end.

Definition log (x : xfloat) : xfloat :=
  match x with
  | Fin a =>
      if Rlt_dec 0 a then Fin (ln a)
      else if Rlt_dec a 0 then NaN else NInf
  | PInf => PInf
  | NInf | NaN => NaN
  end.

(** [x < y]; every comparison with NaN is false. *)
Definition ltb (x y : xfloat) : bool :=
  match x, y with
  | NaN, _ | _, NaN => false
  | Fin a, Fin b => if Rlt_dec a b then true else false
  | NInf, (Fin _ | PInf) | Fin _, PInf => true
  | _, _ => false
  end.

(** [x <= y] *)
Definition leb (x y : xfloat) : bool :=
  match x, y with
  | NaN, _ | _, NaN => false
  | Fin a, Fin b => if Rle_dec a b then true else false
  | NInf, _ | _, PInf => true
  | _, _ => false
  end.

Definition of_Z (z : Z) : xfloat := Fin (IZR z).

Definition lit (q : Q) : xfloat := Fin (Q2R q).

(** Ceiling as an integer; numpy refuses a non-finite length. *)
Definition ceil (x : xfloat) : option Z :=
  match x with Fin r => Some (Zceil r) | _ => None end.

Definition is_finite (x : xfloat) : bool :=
  match x with Fin _ => true | _ => false end.

End XFloat.

(** ** The arithmetic the notebook uses *)

Class Float64 (T : Type) : Type := {
  f_add : T -> T -> T;
  f_sub : T -> T -> T;
  f_mul : T -> T -> T;
  f_div : T -> T -> T;
  f_neg : T -> T;
  f_sqrt : T -> T;             (* np.sqrt *)
  f_ltb : T -> T -> bool;      (* a < b   *)
  f_leb : T -> T -> bool;      (* a <= b  *)
  f_of_Z : Z -> T;             (* an int used where a float is expected *)
  f_lit : Q -> T;              (* a decimal literal such as 0.5 *)
  f_ceil : T -> option Z       (* integer ceiling, None when not finite *)
}.

(** [np.log] is kept apart: the primitive floats have no logarithm. *)
Class Float64Log (T : Type) : Type := {
  f_log : T -> T
}.

Declare Scope np_scope.
Delimit Scope np_scope with np.
Infix "+" := f_add : np_scope.
Infix "-" := f_sub : np_scope.
Infix "*" := f_mul : np_scope.
Infix "/" := f_div : np_scope.
Notation "- a" := (f_neg a) : np_scope.
Notation "a <? b" := (f_ltb a b) : np_scope.
Notation "a >? b" := (f_ltb b a) : np_scope.
Notation "a <=? b" := (f_leb a b) : np_scope.
Notation "0" := (f_of_Z 0%Z) : np_scope.
Notation "1" := (f_of_Z 1%Z) : np_scope.

#[export] Instance xfloat_ops : Float64 xfloat := {
  f_add := XFloat.add;
  f_sub := XFloat.sub;
  f_mul := XFloat.mul;
  f_div := XFloat.div;
  f_neg := XFloat.neg;
  f_sqrt := XFloat.sqrt;
  f_ltb := XFloat.ltb;
  f_leb := XFloat.leb;
  f_of_Z := XFloat.of_Z;
  f_lit := XFloat.lit;
  f_ceil := XFloat.ceil
}.

#[export] Instance xfloat_log : Float64Log xfloat := {
  f_log := XFloat.log
}.

(** int64 to binary64, through the unsigned primitive conversion. *)
Definition float_of_Z (z : Z) : float :=
  if (z <? 0)%Z
  then PrimFloat.opp (PrimFloat.of_uint63 (Uint63.of_Z (- z)))
  else PrimFloat.of_uint63 (Uint63.of_Z z).

Definition float_lit (q : Q) : float :=
  PrimFloat.div (float_of_Z (Qnum q)) (float_of_Z (Z.pos (Qden q))).

Definition float_ceil (f : float) : option Z :=
  match Prim2SF f with
  | S754_zero _ => Some 0%Z
  | S754_finite s m e =>
      let n := if s then Z.neg m else Z.pos m in
      Some (if (0 <=? e)%Z then n * 2 ^ e else - ((- n) / 2 ^ (- e)))%Z
  | S754_infinity _ | S754_nan => None
  end.

#[export] Instance binary64_ops : Float64 float := {
  f_add := PrimFloat.add;
  f_sub := PrimFloat.sub;
  f_mul := PrimFloat.mul;
  f_div := PrimFloat.div;
  f_neg := PrimFloat.opp;
  f_sqrt := PrimFloat.sqrt;
  f_ltb := PrimFloat.ltb;
  f_leb := PrimFloat.leb;
  f_of_Z := float_of_Z;
  f_lit := float_lit;
  f_ceil := float_ceil
}.

(** ** The model (cell 3) *)

Section Model.
Context {T : Type} `{Float64 T}.
Local Open Scope np_scope.

(** [a ** 2] on an array: numpy evaluates a power with exponent 2 as a
    square, [a * a].  Every call of [model] in the notebook passes the
    coordinate arrays [xbin] and [ybin], so both powers of [model] are taken
    on arrays. *)
Definition pow2 (a : T) : T := a * a.

(** [def model(x, y, x_0, y_0, sigma_0, r_0, sigma_background)] on scalars. *)
Definition model (x y x_0 y_0 sigma_0 r_0 sigma_background : T) : T :=
  let r := f_sqrt (pow2 (x - x_0) + pow2 (y - y_0)) in
  sigma_background + sigma_0 / pow2 (1 + r / r_0).

(** The five fit parameters, in the order of [true_pars]. *)
Record pars : Type := Pars {
  p_x_0 : T;
  p_y_0 : T;
  p_sigma_0 : T;
  p_r_0 : T;
  p_sigma_background : T
}.

(** [model(x, y, *p)] *)
Definition model_at (p : pars) (x y : T) : T :=
  model x y (p_x_0 p) (p_y_0 p) (p_sigma_0 p) (p_r_0 p) (p_sigma_background p).

(** The wording of the contract: radial distance of a point from the
    centre, and the intensity at a given radial distance. *)
Definition radial_distance (x y x_0 y_0 : T) : T :=
  f_sqrt ((x - x_0) * (x - x_0) + (y - y_0) * (y - y_0)).

Definition intensity_spec (background peak scale_radius rd : T) : T :=
  background + peak / ((1 + rd / scale_radius) * (1 + rd / scale_radius)).

End Model.

Arguments pars T : clear implicits.

(** ** numpy arrays and the numpy functions the notebook calls *)

Section Numpy.
Context {T : Type} `{Float64 T}.
Local Open Scope np_scope.

(** A 2-D array is the list of its rows; [shape] lists the row lengths.
    Binary operators are modelled on operands of one and the same shape,
    which is all the notebook ever combines; on other operands (numpy would
    stretch an axis of length 1 or raise ValueError) they give [None]. *)
Definition shape {A : Type} (a : list (list A)) : list nat := length <$> a.

Definition arr_map {A B : Type} (f : A -> B) (a : list (list A)) : list (list B) :=
  fmap (M := list) (fmap (M := list) f) a.

Definition arr_zip {A B C : Type} (f : A -> B -> C)
    (a : list (list A)) (b : list (list B)) : option (list (list C)) :=
  if decide (shape a = shape b)
  then Some (zip_with (zip_with f) a b)
  else None.

(** [a[i, j]] *)
Definition arr_get {A : Type} (a : list (list A)) (i j : nat) : option A :=
  match a !! i with
  | Some row => row !! j
  | None => None
  end.

(** The same for 1-D arrays of one length. *)
Definition vec_zip {A B C : Type} (f : A -> B -> C)
    (a : list A) (b : list B) : option (list C) :=
  if decide (length a = length b) then Some (zip_with f a b) else None.

(** [a.sum()]: the accumulation order does not matter without rounding. *)
Definition arr_sum (a : list (list T)) : T :=
  fold_left f_add (mjoin a) 0.

(** [np.where(cond, a, s)] with a scalar [s]. *)
Definition np_where (cond : list (list bool)) (a : list (list T)) (s : T)
    : option (list (list T)) :=
  arr_zip (fun (c : bool) v => if c then v else s) cond a.

(** [np.arange(start, stop, step)] on float64 arguments (the notebook's
    step is the float 0.5, so that the result is a float64 array) has
    ceil((stop - start) / step) values; a length that is not positive gives
    the empty array, one that is not finite is refused.  numpy stores
    [start] and [start + step] and fills in the rest from their difference:
    value [i] is [start + i * delta] with [delta = (start + step) - start]. *)
Definition arange_item (start step : T) (i : nat) : T :=
  match i with
  | O => start
  | S O => start + step
  | _ => start + f_of_Z (Z.of_nat i) * ((start + step) - start)
  end.

Definition np_arange (start stop step : T) : option (list T) :=
  match f_ceil ((stop - start) / step) with
  | Some n => Some (fmap (arange_item start step) (seq 0 (Z.to_nat n)))
  | None => None
  end.

(** [np.meshgrid(xs, ys)]: both results have one row per element of [ys]. *)
Definition np_meshgrid (xs ys : list T) : list (list T) * list (list T) :=
  (replicate (length ys) xs, fmap (fun y => replicate (length xs) y) ys).

(** [a.repeat(repeats)] on a flattened array: element [k] is repeated
    [repeats[k]] times.  A single repeat count applies to every element;
    otherwise the two sizes must agree, and no count may be negative
    (ValueError). *)
Definition broadcast_repeats (n : nat) (repeats : list Z) : list Z :=
  match repeats with
  | [c] => replicate n c
  | _ => repeats
  end.

Definition repeat_each {A : Type} (a : list A) (reps : list Z) : list A :=
  mjoin (zip_with (fun v c => replicate (Z.to_nat c) v) a reps).

Definition np_repeat {A : Type} (a : list A) (repeats : list Z) : option (list A) :=
  let reps := broadcast_repeats (length a) repeats in
  if decide (length a = length reps /\ Forall (fun c => 0 <= c)%Z reps)
  then Some (repeat_each a reps)
  else None.

(** The cells of an array of a given shape, row by row, each named by its
    row and column index; and the sum of an integer array. *)
Fixpoint cell_ids_from (i : nat) (sh : list nat) : list (list (nat * nat)) :=
  match sh with
  | [] => []
  | n :: sh' => ((fun j => (i, j)) <$> seq 0 n) :: cell_ids_from (S i) sh'
  end.

Definition cell_ids (sh : list nat) : list (list (nat * nat)) :=
  cell_ids_from 0 sh.

Definition zsum (l : list Z) : Z := fold_right Z.add 0%Z l.

(** The largest intensity the Poisson sampler accepts,
    [np.iinfo('l').max - np.sqrt(np.iinfo('l').max) * 10]. *)
Definition poisson_lam_max : T :=
  f_of_Z 9223372036854775807 - f_sqrt (f_of_Z 9223372036854775807) * f_of_Z 10.

(** [np.random.poisson(lam)].  The random sample is an argument: [draw i j]
    is the count drawn for cell [(i, j)], a natural number; the result has
    the shape of [lam].  An intensity that is negative, NaN or above
    [poisson_lam_max] is refused (ValueError). *)
Definition np_random_poisson (lam : list (list T)) (draw : nat -> nat -> nat)
    : option (list (list Z)) :=
  if forallb (fun v => (0 <=? v) && (v <=? poisson_lam_max)) (mjoin lam)
  then Some (imap (fun i row => imap (fun j _ => Z.of_nat (draw i j)) row) lam)
  else None.

(** [np.random.uniform(low, high, size)]: [low + (high - low) * u] for
    [size] unit samples; [u k], the k-th of them, lies in [0, 1). *)
Definition np_random_uniform (low high : T) (size : nat) (u : nat -> T) : list T :=
  fmap (fun k => low + (high - low) * u k) (seq 0 size).

(** [model(x, y, ...)] on 2-D coordinate arrays: the two source lines of
    [model], one pass over the array per numpy operator. *)
Definition model_grid (x y : list (list T))
    (x_0 y_0 sigma_0 r_0 sigma_background : T) : option (list (list T)) :=
  match arr_zip f_add (arr_map pow2 (arr_map (fun v => v - x_0) x))
                      (arr_map pow2 (arr_map (fun v => v - y_0) y)) with
  | Some s =>
      let r := arr_map f_sqrt s in
      Some (arr_map (fun v => sigma_background + v)
             (arr_map (fun v => sigma_0 / v)
               (arr_map pow2
                 (arr_map (fun v => 1 + v)
                   (arr_map (fun v => v / r_0) r)))))
  | None => None
  end.

End Numpy.

(** ** The notebook state

    The names the cells bind ([x_min], ..., [binsize], [xbin], [ybin],
    [counts], [xx], [yy]) refer to objects in a heap: numbers and arrays.
    A Python number is held by its float64 value, which is how numpy reads
    it.  A numpy operator or function returns a new array; [+=] on an array
    overwrites the object its left-hand name refers to, and every other
    name of that object sees the change. *)

Section Notebook.
Context {T : Type} `{Float64 T}.
Local Open Scope np_scope.

Inductive obj : Type :=
  | Num (v : T)                     (* a Python number *)
  | Float2 (a : list (list T))      (* 2-D float64 array *)
  | Int2 (a : list (list Z))        (* 2-D int64 array *)
  | Float1 (a : list T).            (* 1-D float64 array *)

Record notebook : Type := Notebook {
  heap : list obj;
  globals : gmap string nat
}.

(** A computation reads and updates the notebook state, or raises. *)
Definition M (A : Type) : Type := notebook -> option (A * notebook).

Definition ret {A : Type} (a : A) : M A := fun s => Some (a, s).

Definition bind {A B : Type} (m : M A) (k : A -> M B) : M B :=
  fun s => match m s with
           | Some (a, s') => k a s'
           | None => None
           end.

Definition raise {A : Type} : M A := fun _ => None.

Definition lift {A : Type} (o : option A) : M A :=
  fun s => match o with
           | Some a => Some (a, s)
           | None => None
           end.

Notation "'let*' x ':=' m 'in' k" := (bind m (fun x => k))
  (at level 10, x name, m at level 100, k at level 200).
Notation "m ';;' k" := (bind m (fun _ => k))
  (at level 100, k at level 200, right associativity, only parsing).

(** A new object at the next free address. *)
Definition alloc (o : obj) : M nat :=
  fun s => Some (length (heap s), Notebook (heap s ++ [o]) (globals s)).

(** [name = <object at l>] *)
Definition assign (name : string) (l : nat) : M unit :=
  fun s => Some (tt, Notebook (heap s) (<[name := l]> (globals s))).

(** Reading a name; an unbound name is a NameError. *)
Definition name_lookup (name : string) : M nat :=
  fun s => match globals s !! name with
           | Some l => Some (l, s)
           | None => None
           end.

Definition deref (l : nat) : M obj :=
  fun s => match heap s !! l with
           | Some o => Some (o, s)
           | None => None
           end.

(** Overwriting the object at [l] in place. *)
Definition store (l : nat) (o : obj) : M unit :=
  fun s => if decide (l < length (heap s))
           then Some (tt, Notebook (<[l := o]> (heap s)) (globals s))
           else None.

Definition load_num (name : string) : M T :=
  let* l := name_lookup name in
  let* o := deref l in
  match o with Num v => ret v | _ => raise end.

Definition load_float2 (name : string) : M (list (list T)) :=
  let* l := name_lookup name in
  let* o := deref l in
  match o with Float2 a => ret a | _ => raise end.

Definition load_int2 (name : string) : M (list (list Z)) :=
  let* l := name_lookup name in
  let* o := deref l in
  match o with Int2 a => ret a | _ => raise end.

Definition load_float1 (name : string) : M (list T) :=
  let* l := name_lookup name in
  let* o := deref l in
  match o with Float1 a => ret a | _ => raise end.

(** [name += b] for a 1-D array: the sum is written into the array that
    [name] refers to. *)
Definition iadd (name : string) (b : list T) : M unit :=
  let* l := name_lookup name in
  let* o := deref l in
  match o with
  | Float1 a =>
      let* a' := lift (vec_zip f_add a b) in
      store l (Float1 a')
  | _ => raise
  end.

(** *** Cell 5: simulated data

    The values of the cell's constants and the list [true_pars] of cell 4
    are arguments (the notebook's own are in [Nb]); the cell binds the
    constants to their names and reads them back, as the source does.
    [draw] is the outcome of the Poisson sampling, [ux] and [uy] are the
    unit samples behind the two calls of [np.random.uniform]. *)
Definition data_cell (x_min x_max y_min y_max binsize : T) (true_pars : pars T)
    (draw : nat -> nat -> nat) (ux uy : nat -> T) : M unit :=
  (* x_min, x_max = -100, 100 *)
  let* l := alloc (Num x_min) in
  assign "x_min" l ;;
  let* l := alloc (Num x_max) in
  assign "x_max" l ;;
  (* y_min, y_max = -80, 80 *)
  let* l := alloc (Num y_min) in
  assign "y_min" l ;;
  let* l := alloc (Num y_max) in
  assign "y_max" l ;;
  (* binsize = 0.5 *)
  let* l := alloc (Num binsize) in
  assign "binsize" l ;;
  (* xbin, ybin = np.meshgrid(np.arange(x_min, x_max, binsize),
                              np.arange(y_min, y_max, binsize)) *)
  let* a := load_num "x_min" in
  let* b := load_num "x_max" in
  let* h := load_num "binsize" in
  let* xs := lift (np_arange a b h) in
  let* a := load_num "y_min" in
  let* b := load_num "y_max" in
  let* h := load_num "binsize" in
  let* ys := lift (np_arange a b h) in
  let* l := alloc (Float2 (fst (np_meshgrid xs ys))) in
  assign "xbin" l ;;
  let* l := alloc (Float2 (snd (np_meshgrid xs ys))) in
  assign "ybin" l ;;
  (* counts = np.random.poisson(model(xbin, ybin, *true_pars)) *)
  let* xb := load_float2 "xbin" in
  let* yb := load_float2 "ybin" in
  let* lam := lift (model_grid xb yb (p_x_0 true_pars) (p_y_0 true_pars)
                      (p_sigma_0 true_pars) (p_r_0 true_pars)
                      (p_sigma_background true_pars)) in
  let* c := lift (np_random_poisson lam draw) in
  let* l := alloc (Int2 c) in
  assign "counts" l ;;
  (* xx = xbin.repeat(counts.flatten()) *)
  let* xb := load_float2 "xbin" in
  let* c := load_int2 "counts" in
  let* r := lift (np_repeat (mjoin xb) (mjoin c)) in
  let* l := alloc (Float1 r) in
  assign "xx" l ;;
  (* yy = ybin.repeat(counts.flatten()) *)
  let* yb := load_float2 "ybin" in
  let* c := load_int2 "counts" in
  let* r := lift (np_repeat (mjoin yb) (mjoin c)) in
  let* l := alloc (Float1 r) in
  assign "yy" l ;;
  (* xx += np.random.uniform(-0.5, 0.5, xx.size) *)
  let* a := load_float1 "xx" in
  iadd "xx" (np_random_uniform (- f_lit (1 # 2)) (f_lit (1 # 2)) (length a) ux) ;;
  (* yy += np.random.uniform(-0.5, 0.5, yy.size) *)
  let* a := load_float1 "yy" in
  iadd "yy" (np_random_uniform (- f_lit (1 # 2)) (f_lit (1 # 2)) (length a) uy).

(** *** Cell 6: the fit statistic *)

(** The summand of one cell, [np.where(mu > 0, -x * np.log(mu) + mu, 1)];
    [x] is an integer count. *)
Definition nll_term `{Float64Log T} (mu : T) (x : Z) : T :=
  if mu >? 0 then f_of_Z (- x) * f_log mu + mu else 1.

(** [def binned_nll(x_0, y_0, sigma_0, r_0, sigma_background)] *)
Definition binned_nll `{Float64Log T}
    (x_0 y_0 sigma_0 r_0 sigma_background : T) : M T :=
  (* mu = model(xbin, ybin, x_0, y_0, sigma_0, r_0, sigma_background) *)
  let* xb := load_float2 "xbin" in
  let* yb := load_float2 "ybin" in
  let* mu := lift (model_grid xb yb x_0 y_0 sigma_0 r_0 sigma_background) in
  (* x = counts *)
  let* x := load_int2 "counts" in
  (* nll = np.where(mu > 0, -x * np.log(mu) + mu, 1) *)
  let* t := lift (arr_zip (fun (c : Z) l => f_of_Z c * l)
                          (arr_map Z.opp x) (arr_map f_log mu)) in
  let* u := lift (arr_zip f_add t mu) in
  let* nll := lift (np_where (arr_map (fun m => m >? 0) mu) u 1) in
  (* return nll.sum() *)
  ret (arr_sum nll).

(** [binned_nll] applied to a parameter tuple. *)
Definition binned_nll_at `{Float64Log T} (p : pars T) : M T :=
  binned_nll (p_x_0 p) (p_y_0 p) (p_sigma_0 p) (p_r_0 p) (p_sigma_background p).

(** The data flow of cell 5 without the heap: the five arrays the cell
    computes, as a function of its constants and of the random outcome.
    [data_cell_spec] below proves that the cell, with its name lookups and
    in-place additions, leaves exactly these arrays in the state. *)
Definition cell_arrays (x_min x_max y_min y_max binsize : T) (true_pars : pars T)
    (draw : nat -> nat -> nat) (ux uy : nat -> T)
    : option (list (list T) * list (list T) * list (list Z) * list T * list T) :=
  xs ← np_arange x_min x_max binsize;
  ys ← np_arange y_min y_max binsize;
  lam ← model_grid (fst (np_meshgrid xs ys)) (snd (np_meshgrid xs ys))
          (p_x_0 true_pars) (p_y_0 true_pars) (p_sigma_0 true_pars)
          (p_r_0 true_pars) (p_sigma_background true_pars);
  c ← np_random_poisson lam draw;
  rx ← np_repeat (mjoin (fst (np_meshgrid xs ys))) (mjoin c);
  ry ← np_repeat (mjoin (snd (np_meshgrid xs ys))) (mjoin c);
  xx ← vec_zip f_add rx
         (np_random_uniform (- f_lit (1 # 2)) (f_lit (1 # 2)) (length rx) ux);
  yy ← vec_zip f_add ry
         (np_random_uniform (- f_lit (1 # 2)) (f_lit (1 # 2)) (length ry) uy);
  Some (fst (np_meshgrid xs ys), snd (np_meshgrid xs ys), c, xx, yy).

(** The state after the cell: ten new objects, the five constants and the
    five arrays, bound to the ten names. *)
Definition cell_state (s : notebook) (x_min x_max y_min y_max binsize : T)
    (r : list (list T) * list (list T) * list (list Z) * list T * list T)
    : notebook :=
  let '(xb, yb, c, xx, yy) := r in
  let n := length (heap s) in
  Notebook (heap s ++ [Num x_min; Num x_max; Num y_min; Num y_max; Num binsize;
                       Float2 xb; Float2 yb; Int2 c; Float1 xx; Float1 yy])
           (<["yy" := (n + 9)%nat]> (<["xx" := (n + 8)%nat]>
              (<["counts" := (n + 7)%nat]> (<["ybin" := (n + 6)%nat]>
                 (<["xbin" := (n + 5)%nat]> (<["binsize" := (n + 4)%nat]>
                    (<["y_max" := (n + 3)%nat]> (<["y_min" := (n + 2)%nat]>
                       (<["x_max" := (n + 1)%nat]>
                          (<["x_min" := n]> (globals s))))))))))).

(** The calls of an optimiser: the objective evaluated at one parameter
    tuple after the other. *)
Fixpoint evaluate_all `{Float64Log T} (ps : list (pars T)) : M (list T) :=
  match ps with
  | [] => ret []
  | p :: ps' =>
      let* v := binned_nll_at p in
      let* vs := evaluate_all ps' in
      ret (v :: vs)
  end.

(** The fixed dataset of a state: the grid [xbin], [ybin] and the counts,
    three arrays of one shape. *)
Definition dataset (s : notebook) (xb yb : list (list T)) (c : list (list Z)) : Prop :=
  load_float2 "xbin" s = Some (xb, s) /\
  load_float2 "ybin" s = Some (yb, s) /\
  load_int2 "counts" s = Some (c, s) /\
  shape xb = shape yb /\ shape c = shape xb.

(** The value of the objective as a function of the dataset and the
    parameters: the sum over the cells of [nll_term] at the model intensity
    and the count of the cell. *)
Definition objective_value `{Float64Log T}
    (xb yb : list (list T)) (c : list (list Z)) (p : pars T) : T :=
  arr_sum (zip_with (zip_with nll_term)
             (zip_with (zip_with (model_at p)) xb yb) c).

End Notebook.

Arguments obj T : clear implicits.
Arguments notebook T : clear implicits.

Notation "'let*' x ':=' m 'in' k" := (bind m (fun x => k))
  (at level 10, x name, m at level 100, k at level 200).

(** The k-th value of [np.random.uniform(-0.5, 0.5, n)]: the offset added to
    the k-th event. *)
Definition jitter {T : Type} `{Float64 T} (u : nat -> T) (k : nat) : T :=
  (- f_lit (1 # 2) + (f_lit (1 # 2) - - f_lit (1 # 2)) * u k)%np.

(** *** The literal values of cells 4 and 5 *)

Module Nb.
Section Constants.
Context {T : Type} `{Float64 T}.
Local Open Scope np_scope.

Definition x_0 : T := f_of_Z 0.
Definition y_0 : T := f_of_Z 0.
Definition r_0 : T := f_of_Z 10.
Definition sigma_0 : T := f_of_Z 100.
Definition sigma_background : T := f_of_Z 10.
Definition true_pars : pars T := Pars x_0 y_0 sigma_0 r_0 sigma_background.

Definition x_min : T := f_of_Z (-100).
Definition x_max : T := f_of_Z 100.
Definition y_min : T := f_of_Z (-80).
Definition y_max : T := f_of_Z 80.
Definition binsize : T := f_lit (1 # 2).

(** The data cell with the notebook's constants. *)
Definition data_cell (draw : nat -> nat -> nat) (ux uy : nat -> T) : M unit :=
  data_cell x_min x_max y_min y_max binsize true_pars draw ux uy.

End Constants.
End Nb.

(** ** The contract of the model over the real numbers

    Radial distance and intensity as real-valued functions, for statements
    about finite parameters. *)

Definition Rdist (x y x_0 y_0 : R) : R :=
  R_sqrt.sqrt ((x - x_0) * (x - x_0) + (y - y_0) * (y - y_0)).

Definition Rintensity (sigma_background sigma_0 r_0 rd : R) : R :=
  (sigma_background + sigma_0 / ((1 + rd / r_0) * (1 + rd / r_0)))%R.

(** The contribution of one cell as the contract words it: [mu - x log mu]
    for a positive intensity [mu] and count [x], the penalty 1 for an
    intensity that is zero or negative. *)
Definition contribution_spec (mu : xfloat) (x : Z) (v : xfloat) : Prop :=
  (XFloat.ltb (Fin 0) mu = true ->
   v = XFloat.sub mu (XFloat.mul (Fin (IZR x)) (XFloat.log mu))) /\
  (XFloat.leb mu (Fin 0) = true -> v = Fin 1).

(** The sum over all cells as the contract words it: the contributions are
    added up cell after cell along a row, and the rows one after the other,
    beginning with nothing. *)
Definition row_total_spec (row : list xfloat) : xfloat :=
  fold_right XFloat.add (Fin 0) row.

Definition total_spec (vs : list (list xfloat)) : xfloat :=
  fold_right (fun row t => XFloat.add (row_total_spec row) t) (Fin 0) vs.

Definition is_fin (v : xfloat) : Prop := XFloat.is_finite v = true.

(** The limit of the Poisson sampler as a real number. *)
Definition lam_max : R :=
  (9223372036854775807 - R_sqrt.sqrt 9223372036854775807 * 10)%R.

(** [model] at finite arguments. *)
Definition model_fin (x y x_0 y_0 sigma_0 r_0 sigma_background : R) : xfloat :=
  model (Fin x) (Fin y) (Fin x_0) (Fin y_0) (Fin sigma_0) (Fin r_0)
        (Fin sigma_background).

(** ** Concrete data for the examples *)

(** A state that holds a dataset, and one that holds the same dataset and
    other event lists. *)
Definition example_state : notebook xfloat :=
  Notebook [Float2 [[Fin 0; Fin 3]]; Float2 [[Fin 0; Fin 4]]; Int2 [[7; 2]]%Z;
            Float1 [Fin 1]; Float1 [Fin 2]]
           (<["yy" := 4]> (<["xx" := 3]> (<["counts" := 2]>
              (<["ybin" := 1]> (<["xbin" := 0]> ∅))))).

Definition example_state' : notebook xfloat :=
  Notebook [Float2 [[Fin 0; Fin 3]]; Float2 [[Fin 0; Fin 4]]; Int2 [[7; 2]]%Z;
            Float1 [Fin 5; Fin 6]; Float1 [Fin 7; Fin 8]]
           (<["yy" := 4]> (<["xx" := 3]> (<["counts" := 2]>
              (<["ybin" := 1]> (<["xbin" := 0]> ∅))))).

Definition example_pars : pars xfloat :=
  Pars (Fin 0) (Fin 0) (Fin 100) (Fin 10) (Fin 10).


(** A Poisson outcome with a single event, in cell [(0, 0)]. *)
Definition one_event (i j : nat) : nat :=
  if (Nat.eqb i 0 && Nat.eqb j 0)%bool then 1%nat else 0%nat.

(** The notebook's data cell on that outcome, followed by a look at
    [xbin[0, 0]], [counts[0, 0]] and [xx]. *)
Definition probe (ux uy : nat -> float)
    : M (T := float) (option float * option Z * list float) :=
  let* _ := Nb.data_cell one_event ux uy in
  let* xb := load_float2 "xbin" in
  let* c := load_int2 "counts" in
  let* xx := load_float1 "xx" in
  ret (arr_get xb 0 0, arr_get c 0 0, xx).

(** ** Further notions for the properties below *)

(** The summand of one cell at a finite intensity [m], as a real number,
    and its value where the intensity equals the count. *)
Definition Rterm (m : R) (x : Z) : R :=
  if Rlt_dec 0 m then (m - IZR x * ln m)%R else 1%R.

Definition saturated (x : Z) : R := (IZR x - IZR x * ln (IZR x))%R.

Definition Rsum (l : list R) : R := fold_right Rplus 0%R l.

(** An intensity that is finite or NaN, and one on which the penalty of the
    fit statistic applies. *)
Definition fin_or_nan (mu : xfloat) : Prop := mu = NaN \/ is_fin mu.

Definition penalised (mu : xfloat) : Prop :=
  mu = NaN \/ exists v : R, mu = Fin v /\ (v <= 0)%R.

(** Unit samples as the random generator delivers them, and a finite value
    in a half-open interval. *)
Definition unit_samples (u : nat -> xfloat) : Prop :=
  forall k : nat, exists r : R, u k = Fin r /\ (0 <= r < 1)%R.

Definition in_range (lo hi : R) (v : xfloat) : Prop :=
  exists g : R, v = Fin g /\ (lo <= g < hi)%R.

(** *** Cell 7: the fit configuration

    [dict(items)] on a list of key-value pairs: a later pair replaces an
    earlier one with the same key.  The values of the three dicts are Python
    ints, floats and booleans. *)
Definition dict_of_items {V : Type} (l : list (string * V)) : gmap string V :=
  foldl (fun m kv => <[kv.1 := kv.2]> m) ∅ l.

Inductive pyval (T : Type) : Type :=
  | PyInt (z : Z)
  | PyFloat (v : T)
  | PyBool (b : bool).

Arguments PyInt {T} z.
Arguments PyFloat {T} v.
Arguments PyBool {T} b.

Module Fit.
Section FitCell.
Context {T : Type} `{Float64 T}.

(** [start_values = dict(x_0=x_0, y_0=y_0, sigma_0=sigma_0, r_0=r_0,
    sigma_background=sigma_background)], the ints of cell 4. *)
Definition start_values : gmap string (pyval T) :=
  <["x_0" := PyInt 0]> (<["y_0" := PyInt 0]> (<["sigma_0" := PyInt 100]>
    (<["r_0" := PyInt 10]> (<["sigma_background" := PyInt 10]> ∅)))).

(** [start_errors = dict(error_x_0=0.01, error_y_0=0.01,
    error_sigma_background=0.01)] *)
Definition start_errors : gmap string (pyval T) :=
  <["error_x_0" := PyFloat (f_lit (1 # 100))]>
    (<["error_y_0" := PyFloat (f_lit (1 # 100))]>
       (<["error_sigma_background" := PyFloat (f_lit (1 # 100))]> ∅)).

(** [fixed_parameters = dict(fix_r_0=True, fix_sigma_background=True)] *)
Definition fixed_parameters : gmap string (pyval T) :=
  <["fix_r_0" := PyBool true]> (<["fix_sigma_background" := PyBool true]> ∅).

(** [pars = dict(start_values.items() + start_errors.items()
    + fixed_parameters.items())] *)
Definition pars : gmap string (pyval T) :=
  dict_of_items (map_to_list start_values ++ map_to_list start_errors
                 ++ map_to_list fixed_parameters).

End FitCell.
End Fit.



(** The state of a notebook in which no cell has run. *)
Definition fresh_state : notebook xfloat := Notebook [] ∅.

(** * Properties *)

(** ** Arithmetic on finite values *)

Section XFloatFacts.
Local Open Scope R_scope.

Lemma Rsign_pos (r : R) : 0 < r -> XFloat.Rsign r = Gt.
Proof.
  intros Hr. unfold XFloat.Rsign.
  destruct (Rlt_dec 0 r) as [_ | Hn]; [reflexivity | contradiction].
Qed.

Lemma Rsign_neg (r : R) : r < 0 -> XFloat.Rsign r = Lt.
Proof.
  intros Hr. unfold XFloat.Rsign.
  destruct (Rlt_dec 0 r) as [Hp | _]; [lra |].
  destruct (Rlt_dec r 0) as [_ | Hn]; [reflexivity | contradiction].
Qed.

Lemma Rsign_zero : XFloat.Rsign 0 = Eq.
Proof.
  unfold XFloat.Rsign.
  destruct (Rlt_dec 0 0) as [Hp | _]; [lra |].
  destruct (Rlt_dec 0 0) as [Hp | _]; [lra | reflexivity].
Qed.

Lemma Rsign_opp (r : R) : XFloat.Rsign (- r) = CompOpp (XFloat.Rsign r).
Proof.
  destruct (Rtotal_order r 0) as [Hlt | [Heq | Hgt]].
  - rewrite (Rsign_neg r Hlt), (Rsign_pos (- r)); [reflexivity | lra].
  - subst r. rewrite Ropp_0, Rsign_zero. reflexivity.
  - rewrite (Rsign_pos r Hgt), (Rsign_neg (- r)); [reflexivity | lra].
Qed.

Lemma add_fin (a b : R) : f_add (Fin a) (Fin b) = Fin (a + b).
Proof. reflexivity. Qed.

Lemma sub_fin (a b : R) : f_sub (Fin a) (Fin b) = Fin (a - b).
Proof. reflexivity. Qed.

Lemma mul_fin (a b : R) : f_mul (Fin a) (Fin b) = Fin (a * b).
Proof. reflexivity. Qed.

Lemma neg_fin (a : R) : f_neg (Fin a) = Fin (- a).
Proof. reflexivity. Qed.

Lemma pow2_fin (a : R) : pow2 (Fin a) = Fin (a * a).
Proof. reflexivity. Qed.

Lemma of_Z_fin (z : Z) : f_of_Z z = Fin (IZR z).
Proof. reflexivity. Qed.

Lemma div_fin (a b : R) : b <> 0 -> f_div (Fin a) (Fin b) = Fin (a / b).
Proof.
  intros Hb. cbn. destruct (Req_dec_T b 0) as [E | _]; [contradiction | reflexivity].
Qed.

Lemma div_fin_zero (a : R) :
  f_div (Fin a) (Fin 0) = XFloat.inf_of_sign (XFloat.Rsign a).
Proof.
  cbn. destruct (Req_dec_T 0 0) as [_ | N]; [reflexivity | contradiction].
Qed.

Lemma sqrt_fin (a : R) : 0 <= a -> f_sqrt (Fin a) = Fin (R_sqrt.sqrt a).
Proof.
  intros Ha. cbn. destruct (Rlt_dec a 0) as [Hn | _]; [lra | reflexivity].
Qed.

Lemma sum_squares_nonneg (a b : R) : 0 <= a * a + b * b.
Proof. nra. Qed.

Lemma Rdist_nonneg (x y x_0 y_0 : R) : 0 <= Rdist x y x_0 y_0.
Proof. unfold Rdist. apply sqrt_pos. Qed.

Lemma Rdist_centre (x_0 y_0 : R) : Rdist x_0 y_0 x_0 y_0 = 0.
Proof.
  unfold Rdist.
  replace ((x_0 - x_0) * (x_0 - x_0) + (y_0 - y_0) * (y_0 - y_0)) with 0 by ring.
  apply sqrt_0.
Qed.

(** The radial distance computed by [model] is the real one. *)
Lemma model_radius (x y x_0 y_0 : R) :
  f_sqrt (f_add (pow2 (f_sub (Fin x) (Fin x_0))) (pow2 (f_sub (Fin y) (Fin y_0))))
  = Fin (Rdist x y x_0 y_0).
Proof.
  rewrite !sub_fin, !pow2_fin, add_fin.
  rewrite sqrt_fin by apply sum_squares_nonneg. reflexivity.
Qed.

(** [model] in terms of the radial distance. *)
Lemma model_fin_unfold (x y x_0 y_0 sigma_0 r_0 sigma_background : R) :
  model_fin x y x_0 y_0 sigma_0 r_0 sigma_background
  = f_add (Fin sigma_background)
          (f_div (Fin sigma_0)
                 (pow2 (f_add (Fin 1) (f_div (Fin (Rdist x y x_0 y_0)) (Fin r_0))))).
Proof.
  unfold model_fin, model. cbv zeta. rewrite model_radius. reflexivity.
Qed.

Lemma one_plus_ratio_zero (d r_0 : R) :
  r_0 <> 0 -> (1 + d / r_0 = 0 <-> d = - r_0).
Proof.
  intros Hr0. split; intros E.
  - assert (E' : (1 + d / r_0) * r_0 = 0) by (rewrite E; ring).
    field_simplify in E'; [lra | exact Hr0].
  - subst d. field. exact Hr0.
Qed.

(** Away from the two divisions by zero the model is the real formula. *)
Lemma model_fin_regular (x y x_0 y_0 sigma_0 r_0 sigma_background : R) :
  r_0 <> 0 -> Rdist x y x_0 y_0 <> - r_0 ->
  model_fin x y x_0 y_0 sigma_0 r_0 sigma_background
  = Fin (Rintensity sigma_background sigma_0 r_0 (Rdist x y x_0 y_0)).
Proof.
  intros Hr0 Hd. rewrite model_fin_unfold.
  set (d := Rdist x y x_0 y_0) in *.
  rewrite (div_fin d r_0 Hr0), add_fin, pow2_fin.
  assert (1 + d / r_0 <> 0) by (rewrite one_plus_ratio_zero; assumption).
  rewrite div_fin by nra. reflexivity.
Qed.

End XFloatFacts.

(** ** The model on finite arguments *)

Section ModelFacts.
Local Open Scope R_scope.

Lemma ratio_nonneg (d r_0 : R) : 0 <= d -> 0 < r_0 -> 0 <= d / r_0.
Proof.
  intros Hd Hr. unfold Rdiv. apply Rmult_le_pos; [exact Hd |].
  left. apply Rinv_0_lt_compat. exact Hr.
Qed.

Lemma Rintensity_nonneg (sigma_background sigma_0 r_0 d : R) :
  0 < r_0 -> 0 <= sigma_0 -> 0 <= sigma_background -> 0 <= d ->
  0 <= Rintensity sigma_background sigma_0 r_0 d.
Proof.
  intros Hr Hs Hb Hd. unfold Rintensity.
  pose proof (ratio_nonneg d r_0 Hd Hr) as Hq.
  assert (Hden : 0 < (1 + d / r_0) * (1 + d / r_0)) by nra.
  assert (0 <= sigma_0 / ((1 + d / r_0) * (1 + d / r_0))).
  { unfold Rdiv. apply Rmult_le_pos; [exact Hs |].
    left. apply Rinv_0_lt_compat. exact Hden. }
  lra.
Qed.

Lemma Rintensity_decreasing (sigma_background sigma_0 r_0 d1 d2 : R) :
  0 < r_0 -> 0 < sigma_0 -> 0 <= d1 -> d1 < d2 ->
  Rintensity sigma_background sigma_0 r_0 d2
  < Rintensity sigma_background sigma_0 r_0 d1.
Proof.
  intros Hr Hs Hd1 Hlt. unfold Rintensity.
  pose proof (ratio_nonneg d1 r_0 Hd1 Hr) as Hq1.
  assert (Hq : d1 / r_0 < d2 / r_0).
  { unfold Rdiv. apply Rmult_lt_compat_r; [apply Rinv_0_lt_compat; exact Hr | exact Hlt]. }
  set (q1 := d1 / r_0) in *. set (q2 := d2 / r_0) in *.
  assert (H1 : 0 < (1 + q1) * (1 + q1)) by nra.
  assert (H2 : (1 + q1) * (1 + q1) < (1 + q2) * (1 + q2)) by nra.
  assert (Hinv : / ((1 + q2) * (1 + q2)) < / ((1 + q1) * (1 + q1))).
  { apply Rinv_lt_contravar; [nra | exact H2]. }
  unfold Rdiv. apply Rplus_lt_compat_l.
  apply Rmult_lt_compat_l; assumption.
Qed.

Lemma Rdist_neq_opp (x y x_0 y_0 r_0 : R) : 0 < r_0 -> Rdist x y x_0 y_0 <> - r_0.
Proof.
  intros Hr E. pose proof (Rdist_nonneg x y x_0 y_0). lra.
Qed.

(** With [r_0 = 0] and a point off the centre, [r / r_0] is [+inf] and the
    source term vanishes. *)
Lemma model_fin_r0_zero_off (x y x_0 y_0 sigma_0 sigma_background : R) :
  Rdist x y x_0 y_0 <> 0 ->
  model_fin x y x_0 y_0 sigma_0 0 sigma_background = Fin sigma_background.
Proof.
  intros Hd. rewrite model_fin_unfold, div_fin_zero.
  pose proof (Rdist_nonneg x y x_0 y_0).
  rewrite Rsign_pos by lra. cbn. rewrite Rplus_0_r. reflexivity.
Qed.

(** With [r_0 = 0] at the centre, [0 / 0] is NaN. *)
Lemma model_fin_r0_zero_centre (x y x_0 y_0 sigma_0 sigma_background : R) :
  Rdist x y x_0 y_0 = 0 ->
  model_fin x y x_0 y_0 sigma_0 0 sigma_background = NaN.
Proof.
  intros Hd. rewrite model_fin_unfold, Hd, div_fin_zero, Rsign_zero. reflexivity.
Qed.

(** At radial distance [- r_0] the source term divides by zero. *)
Lemma model_fin_pole (x y x_0 y_0 sigma_0 r_0 sigma_background : R) :
  r_0 <> 0 -> Rdist x y x_0 y_0 = - r_0 ->
  XFloat.is_finite (model_fin x y x_0 y_0 sigma_0 r_0 sigma_background) = false.
Proof.
  intros Hr0 Hd. rewrite model_fin_unfold, Hd.
  rewrite (div_fin _ r_0 Hr0), add_fin, pow2_fin.
  replace ((1 + - r_0 / r_0) * (1 + - r_0 / r_0)) with 0 by (field; exact Hr0).
  rewrite div_fin_zero.
  destruct (XFloat.Rsign sigma_0); reflexivity.
Qed.

(** C5: at the centre [(x_0, y_0)], with [r_0] nonzero, the model is
    [sigma_background + sigma_0]. *)
Theorem model_at_centre (x_0 y_0 sigma_0 r_0 sigma_background : R) :
  r_0 <> 0 ->
  model_fin x_0 y_0 x_0 y_0 sigma_0 r_0 sigma_background
  = Fin (sigma_background + sigma_0).
Proof.
  intros Hr0. rewrite model_fin_regular.
  - rewrite Rdist_centre. unfold Rintensity. f_equal. field. exact Hr0.
  - exact Hr0.
  - rewrite Rdist_centre. lra.
Qed.

Lemma model_at_centre_witness :
  10 <> 0 /\ model_fin 0 0 0 0 100 10 10 = Fin (10 + 100).
Proof.
  split; [lra | apply (model_at_centre 0 0 100 10 10); lra].
Defined.

(** C6: for [r_0 > 0], [sigma_0 >= 0] and [sigma_background >= 0] the model
    is a finite, non-negative value at every point. *)
Theorem model_nonneg (x y x_0 y_0 sigma_0 r_0 sigma_background : R) :
  0 < r_0 -> 0 <= sigma_0 -> 0 <= sigma_background ->
  exists v : R,
    model_fin x y x_0 y_0 sigma_0 r_0 sigma_background = Fin v /\ 0 <= v.
Proof.
  intros Hr Hs Hb. eexists. split.
  - apply model_fin_regular; [lra | apply Rdist_neq_opp; exact Hr].
  - apply Rintensity_nonneg; try assumption. apply Rdist_nonneg.
Qed.

Lemma model_nonneg_witness :
  0 < 10 /\ 0 <= 100 /\ 0 <= 10 /\
  exists v : R, model_fin 3 4 0 0 100 10 10 = Fin v /\ 0 <= v.
Proof.
  split; [lra |]. split; [lra |]. split; [lra |].
  apply (model_nonneg 3 4 0 0 100 10 10); lra.
Defined.

(** C7, as amended: for [sigma_0 > 0] and [r_0 > 0], of two points the one
    at the larger radial distance from the centre has the strictly smaller
    model value. *)
Theorem model_decreasing
    (x1 y1 x2 y2 x_0 y_0 sigma_0 r_0 sigma_background : R) :
  0 < sigma_0 -> 0 < r_0 ->
  Rdist x1 y1 x_0 y_0 < Rdist x2 y2 x_0 y_0 ->
  exists v1 v2 : R,
    model_fin x1 y1 x_0 y_0 sigma_0 r_0 sigma_background = Fin v1 /\
    model_fin x2 y2 x_0 y_0 sigma_0 r_0 sigma_background = Fin v2 /\
    v2 < v1.
Proof.
  intros Hs Hr Hlt. do 2 eexists. split; [| split].
  - apply model_fin_regular; [lra | apply Rdist_neq_opp; exact Hr].
  - apply model_fin_regular; [lra | apply Rdist_neq_opp; exact Hr].
  - apply Rintensity_decreasing; try assumption. apply Rdist_nonneg.
Qed.

Lemma Rdist_on_axis (x : R) : 0 <= x -> Rdist x 0 0 0 = x.
Proof.
  intros Hx. unfold Rdist.
  replace ((x - 0) * (x - 0) + (0 - 0) * (0 - 0)) with (x * x) by ring.
  apply sqrt_square. exact Hx.
Qed.

Lemma model_decreasing_witness :
  0 < 100 /\ 0 < 10 /\ Rdist 0 0 0 0 < Rdist 5 0 0 0 /\
  exists v1 v2 : R,
    model_fin 0 0 0 0 100 10 10 = Fin v1 /\
    model_fin 5 0 0 0 100 10 10 = Fin v2 /\
    v2 < v1.
Proof.
  assert (Hd : Rdist 0 0 0 0 < Rdist 5 0 0 0).
  { rewrite !Rdist_on_axis by lra. lra. }
  split; [lra |]. split; [lra |]. split; [exact Hd |].
  apply (model_decreasing 0 0 5 0 0 0 100 10 10); [lra | lra | exact Hd].
Defined.

(** C7 as stated fails: with [sigma_0 = 1 > 0] and [r_0 = -10] the point at
    radial distance 5 has the larger value (4) than the centre (1). *)
Lemma model_decreasing_counterexample :
  0 < 1 /\ Rdist 0 0 0 0 < Rdist 5 0 0 0 /\
  model_fin 0 0 0 0 1 (-10) 0 = Fin 1 /\
  model_fin 5 0 0 0 1 (-10) 0 = Fin 4 /\
  ~ (4 < 1).
Proof.
  split; [lra |]. split; [rewrite !Rdist_on_axis by lra; lra |].
  split; [| split; [| lra]].
  - rewrite model_fin_regular; [| lra | rewrite Rdist_on_axis by lra; lra].
    rewrite Rdist_on_axis by lra. unfold Rintensity. f_equal. field.
  - rewrite model_fin_regular; [| lra | rewrite Rdist_on_axis by lra; lra].
    rewrite Rdist_on_axis by lra. unfold Rintensity. f_equal. field.
Qed.

(** C8, as amended: on finite arguments the model never raises and its
    value is finite except at the two divisions by zero: [0 / 0] at the
    centre when [r_0 = 0], and [sigma_0 / 0] at radial distance [- r_0]
    when [r_0 < 0].  In particular it is finite, and given by the real
    formula, whenever [r_0 > 0]; and with [r_0 = 0] it is NaN at the centre
    and [sigma_background] everywhere else. *)
Theorem model_finite_iff (x y x_0 y_0 sigma_0 r_0 sigma_background : R) :
  (XFloat.is_finite (model_fin x y x_0 y_0 sigma_0 r_0 sigma_background) = true
   <-> (r_0 = 0 /\ Rdist x y x_0 y_0 <> 0)
       \/ (r_0 <> 0 /\ Rdist x y x_0 y_0 <> - r_0))
  /\ (0 < r_0 ->
      model_fin x y x_0 y_0 sigma_0 r_0 sigma_background
      = Fin (Rintensity sigma_background sigma_0 r_0 (Rdist x y x_0 y_0)))
  /\ (r_0 = 0 -> Rdist x y x_0 y_0 <> 0 ->
      model_fin x y x_0 y_0 sigma_0 r_0 sigma_background = Fin sigma_background)
  /\ (r_0 = 0 -> Rdist x y x_0 y_0 = 0 ->
      model_fin x y x_0 y_0 sigma_0 r_0 sigma_background = NaN).
Proof.
  split; [| split; [| split]].
  - destruct (Req_dec_T r_0 0) as [E0 | N0].
    + subst r_0. destruct (Req_dec_T (Rdist x y x_0 y_0) 0) as [Ed | Nd].
      * rewrite model_fin_r0_zero_centre by exact Ed. cbn.
        split; [discriminate | intros [[_ H] | [H _]]; contradiction].
      * rewrite model_fin_r0_zero_off by exact Nd. cbn.
        split; [intros _; left; split; [reflexivity | exact Nd] | reflexivity].
    + destruct (Req_dec_T (Rdist x y x_0 y_0) (- r_0)) as [Ed | Nd].
      * rewrite model_fin_pole by assumption.
        split; [discriminate | intros [[H _] | [_ H]]; contradiction].
      * rewrite model_fin_regular by assumption. cbn.
        split; [intros _; right; split; assumption | reflexivity].
  - intros Hr. apply model_fin_regular; [lra | apply Rdist_neq_opp; exact Hr].
  - intros -> Hd. apply model_fin_r0_zero_off. exact Hd.
  - intros -> Hd. apply model_fin_r0_zero_centre. exact Hd.
Qed.

(** C8 as stated fails twice.  A nonzero [r_0] does not keep the result
    finite: with [r_0 = -1] the point at radial distance 1 divides [sigma_0]
    by zero.  And [r_0 = 0] does not make the result non-finite: off the
    centre the result is [sigma_background]. *)
Lemma model_finite_counterexample :
  (-1 <> 0 /\ model_fin 1 0 0 0 100 (-1) 10 = PInf) /\
  model_fin 1 0 0 0 100 0 10 = Fin 10.
Proof.
  split; [split; [lra |] |].
  - rewrite model_fin_unfold, Rdist_on_axis by lra.
    rewrite div_fin by lra. rewrite add_fin, pow2_fin.
    replace ((1 + 1 / -1) * (1 + 1 / -1)) with 0 by field.
    rewrite div_fin_zero, Rsign_pos by lra. reflexivity.
  - apply model_fin_r0_zero_off. rewrite Rdist_on_axis by lra. lra.
Qed.

End ModelFacts.

(** The same evaluations on binary64 floats, where they are computations. *)

Example model_float_centre :
  (model (T := float) 0 0 0 0 100 10 10)%float = 110%float.
Proof. vm_compute. reflexivity. Qed.

Example model_float_pole :
  (model (T := float) 1 0 0 0 100 (-1) 10)%float = infinity.
Proof. vm_compute. reflexivity. Qed.

Example model_float_r0_zero_off :
  (model (T := float) 1 0 0 0 100 0 10)%float = 10%float.
Proof. vm_compute. reflexivity. Qed.

Example model_float_r0_zero_centre :
  PrimFloat.is_nan ((model (T := float) 0 0 0 0 100 0 10))%float = true.
Proof. vm_compute. reflexivity. Qed.

(** Rounding is outside the exact model: binary64 overflows where the
    real formula is finite, and rounds the values at two nearby radii to
    one number. *)
Example model_float_overflow :
  (model (T := float) 0 0 0 0 0x1p1023 1 0x1p1023)%float = infinity.
Proof. vm_compute. reflexivity. Qed.

Example model_float_plateau :
  (model (T := float) 0x1p-100 0 0 0 100 10 10)%float
  = (model (T := float) 0 0 0 0 100 10 10)%float.
Proof. vm_compute. reflexivity. Qed.

Example model_float_negative_r0 :
  (model (T := float) 0 0 0 0 1 (-10) 0)%float = 1%float /\
  (model (T := float) 5 0 0 0 1 (-10) 0)%float = 4%float.
Proof. split; vm_compute; reflexivity. Qed.

(** ** Elementwise array operations *)

Section ArrayFacts.
Context {A B C D : Type}.

Lemma fmap_zip_with_fused (g : C -> D) (f : A -> B -> C) (a : list A) (b : list B) :
  g <$> zip_with f a b = zip_with (fun x y => g (f x y)) a b.
Proof.
  revert b. induction a as [| x a IH]; intros [| y b]; cbn; try reflexivity.
  f_equal. apply IH.
Qed.

Lemma zip_with_diag_r (f : C -> B -> D) (g : A -> B -> C) (a : list A) (b : list B) :
  zip_with f (zip_with g a b) b = zip_with (fun x y => f (g x y) y) a b.
Proof.
  revert b. induction a as [| x a IH]; intros [| y b]; cbn; try reflexivity.
  f_equal. apply IH.
Qed.

Lemma zip_with_guard (f : C -> D -> D) (h : B -> C) (g : A -> B -> D)
    (a : list A) (b : list B) :
  zip_with f (h <$> b) (zip_with g a b) = zip_with (fun x y => f (h y) (g x y)) a b.
Proof.
  revert b. induction a as [| x a IH]; intros [| y b]; cbn; try reflexivity.
  f_equal. apply IH.
Qed.

Lemma shape_arr_map (f : A -> B) (a : list (list A)) : shape (arr_map f a) = shape a.
Proof.
  unfold shape, arr_map. induction a as [| r a IH]; cbn; [reflexivity |].
  rewrite length_fmap. f_equal. exact IH.
Qed.

Lemma shape_zip (f : A -> B -> C) (a : list (list A)) (b : list (list B)) :
  shape a = shape b -> shape (zip_with (zip_with f) a b) = shape a.
Proof.
  unfold shape. revert b. induction a as [| r a IH]; intros [| s b] E; cbn in *;
    try reflexivity; try discriminate.
  injection E as E1 E2. rewrite length_zip_with, <- E1, Nat.min_id.
  f_equal. apply IH. exact E2.
Qed.

Lemma arr_zip_same_shape (f : A -> B -> C) (a : list (list A)) (b : list (list B)) :
  shape a = shape b -> arr_zip f a b = Some (zip_with (zip_with f) a b).
Proof.
  intros E. unfold arr_zip. destruct (decide (shape a = shape b)); [reflexivity | contradiction].
Qed.

Lemma arr_map_zip (g : C -> D) (f : A -> B -> C) (a : list (list A)) (b : list (list B)) :
  arr_map g (zip_with (zip_with f) a b) = zip_with (zip_with (fun x y => g (f x y))) a b.
Proof.
  unfold arr_map. revert b. induction a as [| r a IH]; intros [| s b]; cbn; try reflexivity.
  rewrite fmap_zip_with_fused. f_equal. apply IH.
Qed.

Lemma arr_zip_diag_r (f : C -> B -> D) (g : A -> B -> C)
    (a : list (list A)) (b : list (list B)) :
  zip_with (zip_with f) (zip_with (zip_with g) a b) b
  = zip_with (zip_with (fun x y => f (g x y) y)) a b.
Proof.
  revert b. induction a as [| r a IH]; intros [| s b]; cbn; try reflexivity.
  rewrite zip_with_diag_r. f_equal. apply IH.
Qed.

Lemma arr_zip_guard (f : C -> D -> D) (h : B -> C) (g : A -> B -> D)
    (a : list (list A)) (b : list (list B)) :
  zip_with (zip_with f) (arr_map h b) (zip_with (zip_with g) a b)
  = zip_with (zip_with (fun x y => f (h y) (g x y))) a b.
Proof.
  unfold arr_map. revert b. induction a as [| r a IH]; intros [| s b]; cbn; try reflexivity.
  rewrite zip_with_guard. f_equal. apply IH.
Qed.

Lemma arr_zip_maps {A' : Type} (f : C -> D -> B) (g : A -> C) (h : A' -> D)
    (a : list (list A)) (b : list (list A')) :
  zip_with (zip_with f) (arr_map g a) (arr_map h b)
  = zip_with (zip_with (fun x y => f (g x) (h y))) a b.
Proof.
  unfold arr_map. revert b. induction a as [| r a IH]; intros [| s b]; cbn; try reflexivity.
  rewrite zip_with_fmap_l, zip_with_fmap_r. f_equal. apply IH.
Qed.

Lemma arr_get_zip (f : A -> B -> C) (a : list (list A)) (b : list (list B))
    (i j : nat) (x : A) (y : B) :
  arr_get a i j = Some x -> arr_get b i j = Some y ->
  arr_get (zip_with (zip_with f) a b) i j = Some (f x y).
Proof.
  unfold arr_get. intros Ha Hb.
  destruct (a !! i) as [r |] eqn:Er; [| discriminate].
  destruct (b !! i) as [s |] eqn:Es; [| discriminate].
  rewrite lookup_zip_with, Er, Es. cbn.
  rewrite lookup_zip_with, Ha, Hb. reflexivity.
Qed.

End ArrayFacts.

(** ** The model on arrays *)

Section ModelGrid.
Context {T : Type} `{Float64 T}.
Local Open Scope np_scope.

(** On arrays of one shape, the passes of [model_grid] amount to applying
    [model] to each pair of coordinates. *)
Lemma model_grid_zip (X Y : list (list T))
    (x_0 y_0 sigma_0 r_0 sigma_background : T) :
  shape X = shape Y ->
  model_grid X Y x_0 y_0 sigma_0 r_0 sigma_background
  = Some (zip_with (zip_with
            (fun x y => model x y x_0 y_0 sigma_0 r_0 sigma_background)) X Y).
Proof.
  intros E. unfold model_grid.
  rewrite arr_zip_same_shape by (rewrite !shape_arr_map; exact E).
  rewrite !arr_zip_maps, !arr_map_zip. reflexivity.
Qed.

Lemma model_is_intensity_spec (x y x_0 y_0 sigma_0 r_0 sigma_background : T) :
  model x y x_0 y_0 sigma_0 r_0 sigma_background
  = intensity_spec sigma_background sigma_0 r_0 (radial_distance x y x_0 y_0).
Proof. reflexivity. Qed.

(** C1: the model returns
    [sigma_background + sigma_0 / (1 + r / r_0) ** 2] with
    [r = sqrt((x - x_0) ** 2 + (y - y_0) ** 2)]; on coordinate arrays of one
    shape it returns an array of that shape holding this value at every
    index. *)
Theorem model_elementwise (X Y : list (list T))
    (x_0 y_0 sigma_0 r_0 sigma_background : T) :
  shape X = shape Y ->
  (forall x y : T,
     model x y x_0 y_0 sigma_0 r_0 sigma_background
     = intensity_spec sigma_background sigma_0 r_0
         (radial_distance x y x_0 y_0)) /\
  exists M : list (list T),
    model_grid X Y x_0 y_0 sigma_0 r_0 sigma_background = Some M /\
    shape M = shape X /\
    forall (i j : nat) (x y : T),
      arr_get X i j = Some x -> arr_get Y i j = Some y ->
      arr_get M i j
      = Some (intensity_spec sigma_background sigma_0 r_0
                (radial_distance x y x_0 y_0)).
Proof.
  intros E. split; [intros; apply model_is_intensity_spec |].
  eexists. split; [apply model_grid_zip; exact E |].
  split; [apply shape_zip; exact E |].
  intros i j x y Hx Hy.
  rewrite (arr_get_zip _ X Y i j x y Hx Hy).
  rewrite model_is_intensity_spec. reflexivity.
Qed.

End ModelGrid.

Lemma model_elementwise_witness :
  shape [[0; 3]; [6; 0]]%float = shape [[0; 4]; [8; 0]]%float /\
  ((forall x y : float,
      model x y 0%float 0%float 100%float 10%float 10%float
      = intensity_spec 10%float 100%float 10%float
          (radial_distance x y 0%float 0%float)) /\
   exists M : list (list float),
     model_grid [[0; 3]; [6; 0]]%float [[0; 4]; [8; 0]]%float
       0%float 0%float 100%float 10%float 10%float = Some M /\
     shape M = shape [[0; 3]; [6; 0]]%float /\
     forall (i j : nat) (x y : float),
       arr_get [[0; 3]; [6; 0]]%float i j = Some x ->
       arr_get [[0; 4]; [8; 0]]%float i j = Some y ->
       arr_get M i j
       = Some (intensity_spec 10%float 100%float 10%float
                 (radial_distance x y 0%float 0%float))).
Proof.
  split; [reflexivity |].
  apply (model_elementwise [[0; 3]; [6; 0]]%float [[0; 4]; [8; 0]]%float).
  reflexivity.
Defined.

Example model_grid_float :
  model_grid [[0; 3]; [6; 0]]%float [[0; 4]; [8; 0]]%float
    0%float 0%float 100%float 10%float 10%float
  = Some [[110; 0x1.b38e38e38e38ep+5]; [35; 110]]%float.
Proof. vm_compute. reflexivity. Qed.

(** ** Running computations on a state *)

Section MonadFacts.
Context {T : Type} `{Float64 T}.

Lemma bind_Some {A B : Type} (m : M (T := T) A) (k : A -> M B)
    (s s' : notebook T) (a : A) :
  m s = Some (a, s') -> bind m k s = k a s'.
Proof. intros E. unfold bind. rewrite E. reflexivity. Qed.

Lemma lift_Some {A : Type} (a : A) (s : notebook T) :
  lift (Some a) s = Some (a, s).
Proof. reflexivity. Qed.

End MonadFacts.

Section ArrayFlip.
Context {A B C : Type}.

Lemma arr_zip_flip (f : A -> B -> C) (a : list (list A)) (b : list (list B)) :
  zip_with (zip_with (fun y x => f x y)) b a = zip_with (zip_with f) a b.
Proof.
  revert b. induction a as [| r a IH]; intros [| s b]; cbn; try reflexivity.
  f_equal; [| apply IH].
  apply (zip_with_flip f).
Qed.

End ArrayFlip.

(** ** The objective *)

Section ObjectiveFacts.
Context {T : Type} `{Float64 T} `{Float64Log T}.
Local Open Scope np_scope.

(** The passes of cell 6 over arrays of one shape compute [nll_term] cell
    by cell. *)
Lemma nll_passes (mu : list (list T)) (x : list (list Z)) :
  shape x = shape mu ->
  exists t u : list (list T),
    arr_zip (fun (c : Z) l => f_of_Z c * l) (arr_map Z.opp x) (arr_map f_log mu)
    = Some t /\
    arr_zip f_add t mu = Some u /\
    np_where (arr_map (fun m => m >? 0) mu) u 1
    = Some (zip_with (zip_with nll_term) mu x).
Proof.
  intros E. do 2 eexists. split; [| split].
  - apply arr_zip_same_shape. rewrite !shape_arr_map. exact E.
  - apply arr_zip_same_shape. rewrite arr_zip_maps. rewrite shape_zip; exact E.
  - unfold np_where. rewrite arr_zip_maps, arr_zip_diag_r.
    rewrite arr_zip_same_shape.
    + rewrite arr_zip_guard. rewrite <- arr_zip_flip. reflexivity.
    + rewrite shape_arr_map, shape_zip; [symmetry |]; exact E.
Qed.

(** On a state holding a dataset the objective returns
    [objective_value], and the state it leaves is the state it found. *)
Lemma binned_nll_run (s : notebook T) (xb yb : list (list T)) (c : list (list Z))
    (p : pars T) :
  dataset s xb yb c ->
  binned_nll_at p s = Some (objective_value xb yb c p, s).
Proof.
  intros (Hx & Hy & Hc & Exy & Ec).
  unfold binned_nll_at, binned_nll.
  rewrite (bind_Some _ _ _ _ _ Hx), (bind_Some _ _ _ _ _ Hy).
  rewrite (model_grid_zip xb yb) by exact Exy.
  rewrite (bind_Some _ _ _ _ _ (lift_Some _ _)).
  rewrite (bind_Some _ _ _ _ _ Hc).
  set (mu := zip_with (zip_with _) xb yb).
  assert (Emu : shape c = shape mu).
  { unfold mu. rewrite shape_zip by exact Exy. exact Ec. }
  destruct (nll_passes mu c Emu) as (t & u & Ht & Hu & Hw).
  rewrite Ht, (bind_Some _ _ _ _ _ (lift_Some _ _)).
  rewrite Hu, (bind_Some _ _ _ _ _ (lift_Some _ _)).
  rewrite Hw, (bind_Some _ _ _ _ _ (lift_Some _ _)).
  reflexivity.
Qed.

Lemma evaluate_all_run (s : notebook T) (xb yb : list (list T)) (c : list (list Z))
    (ps : list (pars T)) :
  dataset s xb yb c ->
  evaluate_all ps s = Some (objective_value xb yb c <$> ps, s).
Proof.
  intros D. induction ps as [| p ps IH]; [reflexivity |].
  cbn [evaluate_all].
  rewrite (bind_Some _ _ _ _ _ (binned_nll_run s xb yb c p D)).
  rewrite (bind_Some _ _ _ _ _ IH). reflexivity.
Qed.

(** C4: on a fixed dataset every evaluation of the objective returns, and
    leaves the state (so the grid and the counts) as it found it; and in
    any sequence of evaluations two with the same parameters return the
    same value. *)
Theorem binned_nll_pure (s : notebook T) (xb yb : list (list T))
    (c : list (list Z)) (ps : list (pars T)) :
  dataset s xb yb c ->
  exists vs : list T,
    evaluate_all ps s = Some (vs, s) /\
    length vs = length ps /\
    forall (i j : nat) (p : pars T),
      ps !! i = Some p -> ps !! j = Some p ->
      binned_nll_at p s = Some (objective_value xb yb c p, s) /\
      vs !! i = Some (objective_value xb yb c p) /\
      vs !! j = vs !! i.
Proof.
  intros D. exists (objective_value xb yb c <$> ps).
  split; [apply evaluate_all_run; exact D |].
  split; [apply length_fmap |].
  intros i j p Hi Hj.
  split; [apply binned_nll_run; exact D |].
  rewrite !list_lookup_fmap, Hi, Hj. split; reflexivity.
Qed.

End ObjectiveFacts.

(** ** The data cell on the heap *)

Section CellFacts.
Context {T : Type} `{Float64 T}.

Lemma load_num_run (name : string) (s : notebook T) (l : nat) (v : T) :
  globals s !! name = Some l -> heap s !! l = Some (Num v) ->
  load_num name s = Some (v, s).
Proof.
  intros Hn Hl. unfold load_num, bind, name_lookup, deref. rewrite Hn, Hl. reflexivity.
Qed.

Lemma load_float2_run (name : string) (s : notebook T) (l : nat) (a : list (list T)) :
  globals s !! name = Some l -> heap s !! l = Some (Float2 a) ->
  load_float2 name s = Some (a, s).
Proof.
  intros Hn Hl. unfold load_float2, bind, name_lookup, deref. rewrite Hn, Hl. reflexivity.
Qed.

Lemma load_int2_run (name : string) (s : notebook T) (l : nat) (a : list (list Z)) :
  globals s !! name = Some l -> heap s !! l = Some (Int2 a) ->
  load_int2 name s = Some (a, s).
Proof.
  intros Hn Hl. unfold load_int2, bind, name_lookup, deref. rewrite Hn, Hl. reflexivity.
Qed.

Lemma load_float1_run (name : string) (s : notebook T) (l : nat) (a : list T) :
  globals s !! name = Some l -> heap s !! l = Some (Float1 a) ->
  load_float1 name s = Some (a, s).
Proof.
  intros Hn Hl. unfold load_float1, bind, name_lookup, deref. rewrite Hn, Hl. reflexivity.
Qed.

Lemma iadd_run (name : string) (b : list T) (s : notebook T) (l : nat) (a : list T) :
  globals s !! name = Some l -> heap s !! l = Some (Float1 a) ->
  iadd name b s
  = match vec_zip f_add a b with
    | Some a' => Some (tt, Notebook (<[l := Float1 a']> (heap s)) (globals s))
    | None => None
    end.
Proof.
  intros Hn Hl. unfold iadd, bind, name_lookup, deref, lift, store.
  rewrite Hn, Hl. destruct (vec_zip f_add a b) as [a' |]; [| reflexivity].
  destruct (decide (l < length (heap s))) as [_ | N]; [reflexivity |].
  exfalso. apply N. apply lookup_lt_is_Some. rewrite Hl. eauto.
Qed.

Lemma lookup_heap_tail (h objs : list (obj T)) (k : nat) :
  (h ++ objs) !! (length h + k) = objs !! k.
Proof.
  rewrite lookup_app_r by lia. f_equal. lia.
Qed.

Lemma insert_heap_tail (h objs : list (obj T)) (k : nat) (o : obj T) :
  <[length h + k := o]> (h ++ objs) = h ++ <[k := o]> objs.
Proof.
  rewrite insert_app_r_alt by lia. do 2 f_equal. lia.
Qed.

Ltac heap_norm :=
  cbn [heap globals];
  rewrite <- ?app_assoc; cbn [app];
  rewrite ?length_app; cbn [length];
  rewrite <- ?Nat.add_assoc; cbn [Nat.add].

Ltac solve_name := cbn [globals]; simplify_map_eq; reflexivity.

Lemma alloc_run (o : obj T) (s : notebook T) :
  alloc o s = Some (length (heap s), Notebook (heap s ++ [o]) (globals s)).
Proof. reflexivity. Qed.

Lemma assign_run (name : string) (l : nat) (s : notebook T) :
  assign name l s = Some (tt, Notebook (heap s) (<[name := l]> (globals s))).
Proof. reflexivity. Qed.

Lemma lookup_heap_head (h objs : list (obj T)) : (h ++ objs) !! length h = objs !! 0.
Proof.
  pose proof (lookup_heap_tail h objs 0) as E. rewrite Nat.add_0_r in E. exact E.
Qed.

Ltac solve_heap :=
  cbn [heap];
  first [ rewrite lookup_heap_head; reflexivity
        | rewrite lookup_heap_tail; reflexivity ].

Ltac run_alloc :=
  erewrite (bind_Some (alloc _)) by apply alloc_run; cbv beta;
  erewrite (bind_Some (assign _ _)) by apply assign_run; cbv beta;
  heap_norm.

Ltac run_load lem :=
  erewrite (bind_Some (_ _)) by (eapply lem; [solve_name | solve_heap]);
  cbv beta.

(** The data cell, run on any state, fails exactly when [cell_arrays] is
    undefined; otherwise it returns in the state [cell_state]: the
    constants and the five arrays are new objects behind their names, the
    in-place additions have changed [xx] and [yy] and nothing else, and the
    objects the state held before are untouched. *)
Lemma data_cell_spec (x_min x_max y_min y_max binsize : T) (true_pars : pars T)
    (draw : nat -> nat -> nat) (ux uy : nat -> T) (s : notebook T) :
  data_cell x_min x_max y_min y_max binsize true_pars draw ux uy s
  = match cell_arrays x_min x_max y_min y_max binsize true_pars draw ux uy with
    | Some r => Some (tt, cell_state s x_min x_max y_min y_max binsize r)
    | None => None
    end.
Proof.
  destruct s as [h g].
  unfold data_cell, cell_arrays.
  run_alloc. run_alloc. run_alloc. run_alloc. run_alloc.
  run_load load_num_run. run_load load_num_run. run_load load_num_run.
  destruct (np_arange x_min x_max binsize) as [xs |]; [| reflexivity].
  rewrite (bind_Some _ _ _ _ _ (lift_Some _ _)).
  run_load load_num_run. run_load load_num_run. run_load load_num_run.
  destruct (np_arange y_min y_max binsize) as [ys |]; [| reflexivity].
  cbn [mbind option_bind].
  rewrite (bind_Some _ _ _ _ _ (lift_Some _ _)).
  set (X := (np_meshgrid xs ys).1). set (Y := (np_meshgrid xs ys).2).
  run_alloc. run_alloc.
  run_load load_float2_run. run_load load_float2_run.
  destruct (model_grid X Y _ _ _ _ _) as [lam |]; [| reflexivity].
  cbn [mbind option_bind]. rewrite (bind_Some _ _ _ _ _ (lift_Some _ _)).
  destruct (np_random_poisson lam draw) as [c |]; [| reflexivity].
  cbn [mbind option_bind]. rewrite (bind_Some _ _ _ _ _ (lift_Some _ _)).
  run_alloc.
  run_load load_float2_run. run_load load_int2_run.
  destruct (np_repeat (mjoin X) (mjoin c)) as [rx |]; [| reflexivity].
  cbn [mbind option_bind]. rewrite (bind_Some _ _ _ _ _ (lift_Some _ _)).
  run_alloc.
  run_load load_float2_run. run_load load_int2_run.
  destruct (np_repeat (mjoin Y) (mjoin c)) as [ry |]; [| reflexivity].
  cbn [mbind option_bind]. rewrite (bind_Some _ _ _ _ _ (lift_Some _ _)).
  run_alloc.
  run_load load_float1_run.
  unfold bind at 1.
  erewrite iadd_run by first [solve_name | solve_heap].
  destruct (vec_zip f_add rx _) as [xx |]; [| reflexivity].
  cbn [mbind option_bind heap globals].
  rewrite insert_heap_tail. cbn [insert list_insert].
  run_load load_float1_run.
  erewrite iadd_run by first [solve_name | solve_heap].
  destruct (vec_zip f_add ry _) as [yy |]; [| reflexivity].
  cbn [mbind option_bind heap globals].
  rewrite insert_heap_tail. cbn [insert list_insert].
  reflexivity.
Qed.

(** The five array names read back from the state after the cell. *)
Lemma cell_state_loads (s : notebook T) (x_min x_max y_min y_max binsize : T)
    (xb yb : list (list T)) (c : list (list Z)) (xx yy : list T) :
  let s1 := cell_state s x_min x_max y_min y_max binsize (xb, yb, c, xx, yy) in
  load_float2 "xbin" s1 = Some (xb, s1) /\
  load_float2 "ybin" s1 = Some (yb, s1) /\
  load_int2 "counts" s1 = Some (c, s1) /\
  load_float1 "xx" s1 = Some (xx, s1) /\
  load_float1 "yy" s1 = Some (yy, s1).
Proof.
  unfold cell_state. cbv zeta.
  split; [eapply load_float2_run; [solve_name | solve_heap] |].
  split; [eapply load_float2_run; [solve_name | solve_heap] |].
  split; [eapply load_int2_run; [solve_name | solve_heap] |].
  split; [eapply load_float1_run; [solve_name | solve_heap] |].
  eapply load_float1_run; [solve_name | solve_heap].
Qed.

End CellFacts.

(** ** The fit statistic, cell by cell *)

Section ContributionFacts.
Local Open Scope R_scope.

Lemma leb_zero_not_pos (mu : xfloat) :
  XFloat.leb mu (Fin 0) = true -> XFloat.ltb (Fin 0) mu = false.
Proof.
  destruct mu as [a | | |]; cbn; try reflexivity; try discriminate.
  destruct (Rle_dec a 0) as [Hle | _]; [| discriminate].
  intros _. destruct (Rlt_dec 0 a) as [Hlt | _]; [lra | reflexivity].
Qed.

(** [-x * log(mu) + mu] is [mu - x * log(mu)], special values included. *)
Lemma nll_term_rearranged (mu l : xfloat) (x : Z) :
  XFloat.add (XFloat.mul (Fin (IZR (- x))) l) mu
  = XFloat.sub mu (XFloat.mul (Fin (IZR x)) l).
Proof.
  rewrite opp_IZR. unfold XFloat.sub.
  destruct l as [b | | |]; cbn.
  - destruct mu as [a | | |]; cbn; try reflexivity. f_equal. ring.
  - rewrite Rsign_opp. destruct (XFloat.Rsign (IZR x)), mu; reflexivity.
  - rewrite Rsign_opp. destruct (XFloat.Rsign (IZR x)), mu; reflexivity.
  - destruct mu; reflexivity.
Qed.

Lemma nll_term_spec (mu : xfloat) (x : Z) : contribution_spec mu x (nll_term mu x).
Proof.
  unfold contribution_spec, nll_term. split.
  - intros Hpos. change (f_ltb (f_of_Z 0) mu) with (XFloat.ltb (Fin 0) mu).
    rewrite Hpos. apply nll_term_rearranged.
  - intros Hle. change (f_ltb (f_of_Z 0) mu) with (XFloat.ltb (Fin 0) mu).
    rewrite (leb_zero_not_pos mu Hle). reflexivity.
Qed.

(** Addition of values without rounding: zero is neutral and sums may be
    regrouped, special values included. *)
Lemma xadd_0_l (x : xfloat) : XFloat.add (Fin 0) x = x.
Proof. destruct x as [a | | |]; cbn; try reflexivity. f_equal. lra. Qed.

Lemma xadd_0_r (x : xfloat) : XFloat.add x (Fin 0) = x.
Proof. destruct x as [a | | |]; cbn; try reflexivity. f_equal. lra. Qed.

Lemma xadd_assoc (x y z : xfloat) :
  XFloat.add x (XFloat.add y z) = XFloat.add (XFloat.add x y) z.
Proof.
  destruct x as [a | | |], y as [b | | |], z as [d | | |]; cbn;
    try reflexivity.
  f_equal. lra.
Qed.

(** [a.sum()], which accumulates from the left over the flattened array,
    is the sum over all cells in the contract's grouping. *)
Lemma fold_left_xadd (l : list xfloat) (a : xfloat) :
  fold_left XFloat.add l a = XFloat.add a (row_total_spec l).
Proof.
  revert a. induction l as [| x l IH]; intros a.
  - cbn. symmetry. apply xadd_0_r.
  - cbn [fold_left]. rewrite IH. unfold row_total_spec. cbn [fold_right].
    symmetry. apply xadd_assoc.
Qed.

Lemma row_total_app (l k : list xfloat) :
  row_total_spec (l ++ k) = XFloat.add (row_total_spec l) (row_total_spec k).
Proof.
  unfold row_total_spec. induction l as [| x l IH].
  - cbn [app fold_right]. symmetry. apply xadd_0_l.
  - cbn [app fold_right]. rewrite IH. apply xadd_assoc.
Qed.

Lemma arr_sum_total (vs : list (list xfloat)) : arr_sum vs = total_spec vs.
Proof.
  unfold arr_sum.
  change (fold_left f_add (mjoin vs) (f_of_Z 0))
    with (fold_left XFloat.add (mjoin vs) (Fin 0)).
  rewrite fold_left_xadd, xadd_0_l.
  induction vs as [| row vs IH]; [reflexivity |].
  change (mjoin (row :: vs)) with (row ++ mjoin vs).
  rewrite row_total_app, IH. reflexivity.
Qed.

(** C2: on a fixed dataset the objective returns the sum, over all grid
    cells, of one contribution per cell: [mu - x * log(mu)] where the model
    intensity [mu] of the cell is positive ([x] being its count), and 1
    where [mu] is zero or negative.  The sum is [total_spec], the total in
    the contract's own wording, in which every cell of every row takes
    part. *)
Theorem binned_nll_sum (s : notebook xfloat) (xb yb : list (list xfloat))
    (c : list (list Z)) (p : pars xfloat) :
  dataset s xb yb c ->
  exists vs : list (list xfloat),
    binned_nll_at p s = Some (total_spec vs, s) /\
    shape vs = shape xb /\
    forall (i j : nat) (x y : xfloat) (k : Z),
      arr_get xb i j = Some x -> arr_get yb i j = Some y ->
      arr_get c i j = Some k ->
      exists v : xfloat,
        arr_get vs i j = Some v /\ contribution_spec (model_at p x y) k v.
Proof.
  intros D. pose proof D as (_ & _ & _ & Exy & Ec).
  exists (zip_with (zip_with nll_term) (zip_with (zip_with (model_at p)) xb yb) c).
  split.
  { rewrite (binned_nll_run s xb yb c p D). unfold objective_value.
    rewrite arr_sum_total. reflexivity. }
  split.
  - rewrite shape_zip; rewrite shape_zip by exact Exy; [reflexivity |].
    symmetry. exact Ec.
  - intros i j x y k Hx Hy Hk. eexists. split.
    + apply arr_get_zip; [apply arr_get_zip; eassumption | exact Hk].
    + apply nll_term_spec.
Qed.

End ContributionFacts.

Lemma binned_nll_sum_witness :
  dataset example_state [[Fin 0; Fin 3]] [[Fin 0; Fin 4]] [[7; 2]]%Z /\
  exists vs : list (list xfloat),
    binned_nll_at example_pars example_state = Some (total_spec vs, example_state) /\
    shape vs = shape [[Fin 0; Fin 3]] /\
    forall (i j : nat) (x y : xfloat) (k : Z),
      arr_get [[Fin 0; Fin 3]] i j = Some x ->
      arr_get [[Fin 0; Fin 4]] i j = Some y ->
      arr_get [[7; 2]]%Z i j = Some k ->
      exists v : xfloat,
        arr_get vs i j = Some v /\
        contribution_spec (model_at example_pars x y) k v.
Proof.
  split; [repeat split; reflexivity |].
  apply (binned_nll_sum example_state [[Fin 0; Fin 3]] [[Fin 0; Fin 4]]
           [[7; 2]]%Z example_pars).
  repeat split; reflexivity.
Defined.

Lemma binned_nll_pure_witness :
  dataset example_state [[Fin 0; Fin 3]] [[Fin 0; Fin 4]] [[7; 2]]%Z /\
  exists vs : list xfloat,
    evaluate_all [example_pars; example_pars] example_state
    = Some (vs, example_state) /\
    length vs = length [example_pars; example_pars] /\
    forall (i j : nat) (p : pars xfloat),
      [example_pars; example_pars] !! i = Some p ->
      [example_pars; example_pars] !! j = Some p ->
      binned_nll_at p example_state
      = Some (objective_value [[Fin 0; Fin 3]] [[Fin 0; Fin 4]] [[7; 2]]%Z p,
              example_state) /\
      vs !! i = Some (objective_value [[Fin 0; Fin 3]] [[Fin 0; Fin 4]]
                        [[7; 2]]%Z p) /\
      vs !! j = vs !! i.
Proof.
  split; [repeat split; reflexivity |].
  apply (binned_nll_pure example_state [[Fin 0; Fin 3]] [[Fin 0; Fin 4]]
           [[7; 2]]%Z [example_pars; example_pars]).
  repeat split; reflexivity.
Defined.

(** C10: the objective reads the grid and the counts only.  On two states
    that hold the same grid and counts, whatever else they hold (the event
    lists [xx], [yy] in particular), it returns the same value for every
    parameter tuple. *)
Theorem objective_ignores_events {T : Type} `{Float64 T} `{Float64Log T}
    (s1 s2 : notebook T) (xb yb : list (list T)) (c : list (list Z))
    (p : pars T) :
  dataset s1 xb yb c -> dataset s2 xb yb c ->
  exists v : T,
    binned_nll_at p s1 = Some (v, s1) /\ binned_nll_at p s2 = Some (v, s2).
Proof.
  intros D1 D2. exists (objective_value xb yb c p).
  split; apply binned_nll_run; assumption.
Qed.

Lemma objective_ignores_events_witness :
  dataset example_state [[Fin 0; Fin 3]] [[Fin 0; Fin 4]] [[7; 2]]%Z /\
  dataset example_state' [[Fin 0; Fin 3]] [[Fin 0; Fin 4]] [[7; 2]]%Z /\
  load_float1 "xx" example_state = Some ([Fin 1], example_state) /\
  load_float1 "xx" example_state' = Some ([Fin 5; Fin 6], example_state') /\
  exists v : xfloat,
    binned_nll_at example_pars example_state = Some (v, example_state) /\
    binned_nll_at example_pars example_state' = Some (v, example_state').
Proof.
  split; [repeat split; reflexivity |].
  split; [repeat split; reflexivity |].
  split; [reflexivity |]. split; [reflexivity |].
  apply (objective_ignores_events example_state example_state'
           [[Fin 0; Fin 3]] [[Fin 0; Fin 4]] [[7; 2]]%Z example_pars);
    repeat split; reflexivity.
Defined.

(** ** Repeating the elements of an array *)

Section RepeatFacts.
Context {A : Type}.
Implicit Types (a : list A) (reps : list Z).

Lemma repeat_each_cons (x : A) a (c : Z) reps :
  repeat_each (x :: a) (c :: reps) = replicate (Z.to_nat c) x ++ repeat_each a reps.
Proof. reflexivity. Qed.

Lemma broadcast_repeats_same a reps :
  length a = length reps -> broadcast_repeats (length a) reps = reps.
Proof.
  intros E. destruct reps as [| c [| c' reps]]; try reflexivity.
  cbn in *. rewrite E. reflexivity.
Qed.

Lemma np_repeat_Some a reps :
  length a = length reps -> Forall (fun c => 0 <= c)%Z reps ->
  np_repeat a reps = Some (repeat_each a reps).
Proof.
  intros E F. unfold np_repeat. cbv zeta. rewrite (broadcast_repeats_same a reps E).
  destruct (decide _) as [_ | N]; [reflexivity |]. exfalso. apply N. split; assumption.
Qed.

Lemma length_repeat_each a reps :
  length a = length reps -> Forall (fun c => 0 <= c)%Z reps ->
  Z.of_nat (length (repeat_each a reps)) = zsum reps.
Proof.
  revert reps. induction a as [| x a IH]; intros [| c reps] E F; cbn in E;
    try discriminate; [reflexivity |].
  rewrite repeat_each_cons, length_app, length_replicate.
  apply Forall_cons in F as [Hc F]. cbn [zsum fold_right].
  fold (zsum reps). rewrite <- (IH reps) by (try assumption; lia). lia.
Qed.

Lemma elem_of_repeat_each (x : A) a reps : x ∈ repeat_each a reps -> x ∈ a.
Proof.
  revert reps. induction a as [| y a IH]; intros [| c reps];
    try (cbn; intros Hx; inversion Hx; fail).
  rewrite repeat_each_cons, elem_of_app, elem_of_replicate.
  intros [[-> _] | Hx]; [left | right; eapply IH; exact Hx].
Qed.

End RepeatFacts.

Section RepeatPairs.
Context {A B : Type}.

Lemma zip_replicate_app (n : nat) (x : A) (y : B) (l : list A) (k : list B) :
  zip (replicate n x ++ l) (replicate n y ++ k) = replicate n (x, y) ++ zip l k.
Proof. induction n as [| n IH]; cbn; [reflexivity | f_equal; exact IH]. Qed.

(** Repeating two arrays with the same counts keeps their elements paired. *)
Lemma repeat_each_zip (a : list A) (b : list B) (reps : list Z) :
  repeat_each (zip a b) reps = zip (repeat_each a reps) (repeat_each b reps).
Proof.
  revert b reps. induction a as [| x a IH]; intros [| y b] [| c reps];
    try reflexivity.
  - symmetry. apply (zip_with_nil_r pair).
  - change (zip (x :: a) (y :: b)) with ((x, y) :: zip a b).
    rewrite !repeat_each_cons, zip_replicate_app. f_equal. apply IH.
Qed.

End RepeatPairs.

Section RepeatCount.
Context {A : Type} `{EqDecision A}.

Lemma filter_eq_replicate (x y : A) (n : nat) :
  length (filter (fun o => o = x) (replicate n y)) = if decide (y = x) then n else 0.
Proof.
  induction n as [| n IH]; [destruct (decide (y = x)); reflexivity |].
  change (replicate (S n) y) with (y :: replicate n y).
  rewrite filter_cons. destruct (decide (y = x)) as [E | N]; cbn; rewrite IH; reflexivity.
Qed.

Lemma filter_eq_absent (x : A) (l : list A) :
  x ∉ l -> filter (fun o => o = x) l = [].
Proof.
  induction l as [| y l IH]; intros Hx; [reflexivity |].
  rewrite filter_cons. destruct (decide (y = x)) as [-> | N].
  - exfalso. apply Hx. left.
  - apply IH. intros H. apply Hx. right. exact H.
Qed.

(** In the repetition of an array without duplicates, an element occurs as
    often as its count says. *)
Lemma count_repeat_each (a : list A) (reps : list Z) (x : A) (n : Z) :
  NoDup a -> (x, n) ∈ zip a reps ->
  length (filter (fun o => o = x) (repeat_each a reps)) = Z.to_nat n.
Proof.
  revert reps. induction a as [| y a IH]; intros [| c reps] ND Hin; cbn in Hin;
    try (inversion Hin; fail).
  apply NoDup_cons in ND as [Hy ND].
  rewrite repeat_each_cons, filter_app, length_app, filter_eq_replicate.
  apply elem_of_cons in Hin as [[= -> ->] | Hin].
  - rewrite decide_True by reflexivity.
    rewrite filter_eq_absent; [cbn; lia |].
    intros H. apply Hy. eapply elem_of_repeat_each. exact H.
  - assert (x ∈ a) as Hxa.
    { apply elem_of_zip_l in Hin. exact Hin. }
    rewrite decide_False by (intros ->; contradiction).
    cbn. apply IH; assumption.
Qed.

End RepeatCount.

(** ** The cells of an array *)

Section CellIdFacts.
Context {A : Type}.
Implicit Types (a : list (list A)).

Lemma shape_length_join {B : Type} a (b : list (list B)) :
  shape a = shape b -> length (mjoin a) = length (mjoin b).
Proof.
  revert b. induction a as [| r a IH]; intros [| s b] E; cbn in E;
    try discriminate; [reflexivity |].
  injection E as E1 E2. cbn. rewrite !length_app, E1. f_equal. apply IH. exact E2.
Qed.

Lemma length_row_ids (o n : nat) : length ((fun j => (o, j)) <$> seq 0 n) = n.
Proof. rewrite length_fmap. apply length_seq. Qed.

Lemma elem_of_row_zip (o : nat) (r : list A) (i j : nat) (x : A) :
  ((i, j), x) ∈ zip ((fun j => (o, j)) <$> seq 0 (length r)) r
  <-> i = o /\ r !! j = Some x.
Proof.
  split.
  - intros Hin. apply elem_of_lookup_zip_with in Hin.
    destruct Hin as (q & [i' j'] & x' & E & Hq & Hx). injection E as -> -> ->.
    rewrite list_lookup_fmap in Hq.
    destruct (seq 0 (length r) !! q) as [q' |] eqn:Eq; [| discriminate].
    apply lookup_seq in Eq as [-> _]. cbn in Hq. injection Hq as -> ->.
    split; [reflexivity | exact Hx].
  - intros [-> Hx]. apply elem_of_lookup_zip_with.
    exists j, (o, j), x. split; [reflexivity |]. split; [| exact Hx].
    rewrite list_lookup_fmap, lookup_seq_lt; [reflexivity |].
    eapply lookup_lt_Some. exact Hx.
Qed.

Lemma elem_of_cell_ids_from (o : nat) (sh : list nat) (i j : nat) :
  (i, j) ∈ mjoin (cell_ids_from o sh) -> o <= i.
Proof.
  revert o. induction sh as [| n sh IH]; intros o; cbn; [intros Hx; inversion Hx |].
  rewrite elem_of_app, list_elem_of_fmap.
  intros [(q & E & _) | Hin]; [injection E as -> _; lia |].
  apply IH in Hin. lia.
Qed.

Lemma NoDup_cell_ids_from (o : nat) (sh : list nat) :
  NoDup (mjoin (cell_ids_from o sh)).
Proof.
  revert o. induction sh as [| n sh IH]; intros o; cbn; [constructor |].
  apply NoDup_app. split; [| split; [| apply IH]].
  - apply NoDup_fmap_2; [| apply NoDup_seq]. intros j1 j2 E. injection E. auto.
  - intros [i j] Hrow Hrest. apply list_elem_of_fmap in Hrow as (q & E & _).
    injection E as -> _. apply elem_of_cell_ids_from in Hrest. lia.
Qed.

Lemma length_cell_ids_from (o : nat) a :
  length (mjoin (cell_ids_from o (shape a))) = length (mjoin a).
Proof.
  revert o. induction a as [| r a IH]; intros o; cbn; [reflexivity |].
  rewrite !length_app, length_row_ids. f_equal. apply IH.
Qed.

(** A cell name sits next to an element in the flattened array exactly when
    the element is at that row and column. *)
Lemma cells_from_spec (o : nat) a (i j : nat) (x : A) :
  ((i, j), x) ∈ zip (mjoin (cell_ids_from o (shape a))) (mjoin a)
  <-> o <= i /\ arr_get a (i - o) j = Some x.
Proof.
  revert o. induction a as [| r a IH]; intros o.
  - cbn. split; [intros Hx; inversion Hx | intros [_ Hx]; discriminate].
  - change (shape (r :: a)) with (length r :: shape a).
    cbn [cell_ids_from]. change (mjoin (r :: a)) with (r ++ mjoin a).
    change (mjoin (?l :: ?k)) with (l ++ mjoin k).
    rewrite zip_with_app by apply length_row_ids.
    rewrite elem_of_app, elem_of_row_zip, IH. unfold arr_get. split.
    + intros [[-> Hx] | [Hle Hx]].
      * split; [lia |]. rewrite Nat.sub_diag. exact Hx.
      * split; [lia |]. replace (i - o) with (S (i - S o)) by lia. exact Hx.
    + intros [Hle Hx]. destruct (decide (i = o)) as [-> | N].
      * left. split; [reflexivity |]. rewrite Nat.sub_diag in Hx. exact Hx.
      * right. split; [lia |]. replace (i - o) with (S (i - S o)) in Hx by lia.
        exact Hx.
Qed.

Lemma cells_spec a (i j : nat) (x : A) :
  ((i, j), x) ∈ zip (mjoin (cell_ids (shape a))) (mjoin a)
  <-> arr_get a i j = Some x.
Proof.
  unfold cell_ids. rewrite cells_from_spec, Nat.sub_0_r. split.
  - intros [_ Hx]. exact Hx.
  - intros Hx. split; [lia | exact Hx].
Qed.

End CellIdFacts.

(** ** What the data cell leaves in the state *)

Section GeneratorFacts.
Context {T : Type} `{Float64 T}.
Local Open Scope np_scope.

Lemma shape_meshgrid (xs ys : list T) :
  shape (fst (np_meshgrid xs ys)) = shape (snd (np_meshgrid xs ys)).
Proof.
  unfold np_meshgrid, shape. cbn [fst snd].
  induction ys as [| y ys IH]; cbn; [reflexivity |].
  rewrite length_replicate. f_equal. exact IH.
Qed.

Lemma poisson_row (f : nat -> nat) (row : list T) :
  length (imap (fun j _ => Z.of_nat (f j)) row) = length row /\
  Forall (fun c => 0 <= c)%Z (imap (fun j _ => Z.of_nat (f j)) row).
Proof.
  split; [apply length_imap |].
  revert f. induction row as [| v row IH]; intros f; cbn; constructor.
  - lia.
  - apply (IH (f ∘ S)).
Qed.

Lemma poisson_rows (f : nat -> nat -> nat) (lam : list (list T)) :
  shape (imap (fun i row => imap (fun j _ => Z.of_nat (f i j)) row) lam) = shape lam /\
  Forall (fun c => 0 <= c)%Z
    (mjoin (imap (fun i row => imap (fun j _ => Z.of_nat (f i j)) row) lam)).
Proof.
  revert f. induction lam as [| row lam IH]; intros f; cbn; [split; constructor |].
  destruct (IH (f ∘ S)) as [Es Ef]. destruct (poisson_row (f 0%nat) row) as [El Er].
  split.
  - unfold shape in *. cbn. rewrite El. f_equal. exact Es.
  - apply Forall_app. split; [exact Er | exact Ef].
Qed.

Lemma np_random_poisson_inv (lam : list (list T)) (draw : nat -> nat -> nat)
    (c : list (list Z)) :
  np_random_poisson lam draw = Some c ->
  shape c = shape lam /\ Forall (fun n => 0 <= n)%Z (mjoin c).
Proof.
  unfold np_random_poisson. destruct (forallb _ _); [| discriminate].
  intros [= <-]. apply poisson_rows.
Qed.

Lemma poisson_get_row (f : nat -> nat) (row : list T) (j : nat) (n : Z) :
  imap (fun j _ => Z.of_nat (f j)) row !! j = Some n -> n = Z.of_nat (f j).
Proof.
  rewrite list_lookup_imap. destruct (row !! j); [| discriminate].
  cbn. intros [= <-]. reflexivity.
Qed.

Lemma np_random_poisson_get (lam : list (list T)) (draw : nat -> nat -> nat)
    (c : list (list Z)) (i j : nat) (n : Z) :
  np_random_poisson lam draw = Some c -> arr_get c i j = Some n ->
  n = Z.of_nat (draw i j).
Proof.
  unfold np_random_poisson. destruct (forallb _ _); [| discriminate].
  intros [= <-]. unfold arr_get. rewrite list_lookup_imap.
  destruct (lam !! i) as [row |]; [| discriminate]. cbn.
  apply poisson_get_row.
Qed.

Lemma length_np_random_uniform (low high : T) (n : nat) (u : nat -> T) :
  length (np_random_uniform low high n u) = n.
Proof. unfold np_random_uniform. rewrite length_fmap. apply length_seq. Qed.

Lemma lookup_np_random_uniform (low high : T) (n : nat) (u : nat -> T) (k : nat) :
  (k < n)%nat ->
  np_random_uniform low high n u !! k = Some (low + (high - low) * u k).
Proof.
  intros Hk. unfold np_random_uniform.
  rewrite list_lookup_fmap, lookup_seq_lt by exact Hk. reflexivity.
Qed.

(** Adding the jitter to an array of positions. *)
Lemma jittered_inv (r out : list T) (u : nat -> T) :
  vec_zip f_add r (np_random_uniform (- f_lit (1 # 2)) (f_lit (1 # 2)) (length r) u)
  = Some out ->
  length out = length r /\
  forall (k : nat) (x : T), r !! k = Some x -> out !! k = Some (x + jitter u k).
Proof.
  unfold vec_zip. destruct (decide _) as [E | _]; [| discriminate].
  intros [= <-]. split.
  - rewrite length_zip_with, <- E. apply Nat.min_id.
  - intros k x Hk. rewrite lookup_zip_with, Hk. cbn.
    rewrite lookup_np_random_uniform by (eapply lookup_lt_Some; exact Hk).
    reflexivity.
Qed.

Lemma jittered_total (r : list T) (u : nat -> T) :
  exists out : list T,
    vec_zip f_add r
      (np_random_uniform (- f_lit (1 # 2)) (f_lit (1 # 2)) (length r) u)
    = Some out.
Proof.
  unfold vec_zip. rewrite length_np_random_uniform.
  destruct (decide (length r = length r)) as [_ | N]; [eauto | contradiction].
Qed.

Lemma cell_arrays_inv (x_min x_max y_min y_max binsize : T) (true_pars : pars T)
    (draw : nat -> nat -> nat) (ux uy : nat -> T)
    (xb yb : list (list T)) (c : list (list Z)) (xx yy : list T) :
  cell_arrays x_min x_max y_min y_max binsize true_pars draw ux uy
  = Some (xb, yb, c, xx, yy) ->
  shape xb = shape yb /\ shape c = shape xb /\
  Forall (fun n => 0 <= n)%Z (mjoin c) /\
  (forall (i j : nat) (n : Z), arr_get c i j = Some n -> n = Z.of_nat (draw i j)) /\
  np_repeat (mjoin xb) (mjoin c) = Some (repeat_each (mjoin xb) (mjoin c)) /\
  np_repeat (mjoin yb) (mjoin c) = Some (repeat_each (mjoin yb) (mjoin c)) /\
  vec_zip f_add (repeat_each (mjoin xb) (mjoin c))
    (np_random_uniform (- f_lit (1 # 2)) (f_lit (1 # 2))
       (length (repeat_each (mjoin xb) (mjoin c))) ux) = Some xx /\
  vec_zip f_add (repeat_each (mjoin yb) (mjoin c))
    (np_random_uniform (- f_lit (1 # 2)) (f_lit (1 # 2))
       (length (repeat_each (mjoin yb) (mjoin c))) uy) = Some yy.
Proof.
  unfold cell_arrays.
  destruct (np_arange x_min x_max binsize) as [xs |]; [| discriminate].
  destruct (np_arange y_min y_max binsize) as [ys |]; [| discriminate].
  cbn [mbind option_bind].
  pose proof (shape_meshgrid xs ys) as Exy.
  set (X := fst (np_meshgrid xs ys)) in *. set (Y := snd (np_meshgrid xs ys)) in *.
  rewrite (model_grid_zip X Y) by exact Exy. cbn [mbind option_bind].
  set (lam := zip_with (zip_with _) X Y).
  destruct (np_random_poisson lam draw) as [c' |] eqn:Ep; [| discriminate].
  cbn [mbind option_bind].
  destruct (np_random_poisson_inv lam draw c' Ep) as [Ec Fc].
  assert (Ecx : shape c' = shape X).
  { rewrite Ec. unfold lam. apply shape_zip. exact Exy. }
  assert (Lx : length (mjoin X) = length (mjoin c')).
  { apply shape_length_join. symmetry. exact Ecx. }
  assert (Ly : length (mjoin Y) = length (mjoin c')).
  { apply shape_length_join. rewrite <- Exy. symmetry. exact Ecx. }
  rewrite (np_repeat_Some (mjoin X) (mjoin c') Lx Fc).
  rewrite (np_repeat_Some (mjoin Y) (mjoin c') Ly Fc).
  cbn [mbind option_bind].
  destruct (vec_zip f_add (repeat_each (mjoin X) (mjoin c')) _) as [xx' |] eqn:Ex;
    [| discriminate].
  cbn [mbind option_bind].
  destruct (vec_zip f_add (repeat_each (mjoin Y) (mjoin c')) _) as [yy' |] eqn:Ey;
    [| discriminate].
  cbn [mbind option_bind].
  intros [= <- <- <- <- <-].
  split; [exact Exy |]. split; [exact Ecx |]. split; [exact Fc |].
  split; [intros i j n; apply (np_random_poisson_get lam draw c' i j n Ep) |].
  split; [apply np_repeat_Some; assumption |].
  split; [apply np_repeat_Some; assumption |].
  split; assumption.
Qed.

(** The flat list of cell names repeated like the coordinates: the cell
    each event comes from. *)
Lemma origins_spec (xb : list (list T)) (c : list (list Z)) :
  shape c = shape xb ->
  Forall (fun n => 0 <= n)%Z (mjoin c) ->
  let origin := repeat_each (mjoin (cell_ids (shape c))) (mjoin c) in
  let rx := repeat_each (mjoin xb) (mjoin c) in
  length origin = length rx /\
  Z.of_nat (length rx) = zsum (mjoin c) /\
  (forall (i j : nat) (n : Z), arr_get c i j = Some n ->
     length (filter (fun o => o = (i, j)) origin) = Z.to_nat n) /\
  (forall (k i j : nat), origin !! k = Some (i, j) ->
     exists x : T, arr_get xb i j = Some x /\ rx !! k = Some x).
Proof.
  intros Ec Fc origin rx.
  assert (Lx : length (mjoin xb) = length (mjoin c)).
  { apply shape_length_join. symmetry. exact Ec. }
  assert (Li : length (mjoin (cell_ids (shape c))) = length (mjoin c)).
  { apply length_cell_ids_from. }
  assert (Lo : length origin = length rx).
  { apply Nat2Z.inj. unfold origin, rx. rewrite !length_repeat_each; auto. }
  split; [exact Lo |].
  split; [apply length_repeat_each; assumption |].
  split.
  - intros i j n Hn. apply count_repeat_each; [apply NoDup_cell_ids_from |].
    apply cells_spec. exact Hn.
  - intros k i j Hk.
    assert (Hlt : (k < length rx)%nat).
    { rewrite <- Lo. eapply lookup_lt_Some. exact Hk. }
    destruct (lookup_lt_is_Some_2 rx k Hlt) as [x Hx].
    exists x. split; [| exact Hx].
    apply cells_spec. rewrite <- Ec.
    apply (elem_of_repeat_each _ _ (mjoin c)).
    rewrite repeat_each_zip. apply (list_elem_of_lookup_2 _ k).
    rewrite lookup_zip_with. fold origin rx. rewrite Hk, Hx. reflexivity.
Qed.

End GeneratorFacts.

(** ** The events of the data cell *)

Section EventFacts.
Context {T : Type} `{Float64 T}.
Local Open Scope np_scope.


End EventFacts.


Section JitterFacts.
Local Open Scope R_scope.

Lemma lit_half : f_lit (1 # 2) = Fin (/ 2).
Proof. cbn. unfold XFloat.lit. f_equal. unfold Q2R. cbn. lra. Qed.

(** The offset of an event, for a unit sample [r] in [0, 1): [r - 1/2],
    anywhere in [-1/2, 1/2). *)
Lemma jitter_range (u : nat -> xfloat) (k : nat) (r : R) :
  u k = Fin r -> 0 <= r < 1 ->
  jitter u k = Fin (r - / 2) /\ - / 2 <= r - / 2 < / 2.
Proof.
  intros E Hr. split; [| lra].
  unfold jitter. rewrite E, lit_half.
  rewrite neg_fin, sub_fin, mul_fin, add_fin. f_equal. lra.
Qed.

End JitterFacts.

(** C3, where the code departs from it: an event is to be offset from its
    cell coordinate by at most half the bin size, 0.25, in each axis.  The
    notebook's data cell, run on binary64 floats from the empty state with
    one event in cell [(0, 0)] and the unit sample 0.875, puts that event at
    -99.625, which is 0.375 away from the cell coordinate -100: the jitter
    is drawn between -0.5 and 0.5, the whole bin size on either side. *)
Theorem jitter_exceeds_half_bin :
  fst <$> probe (fun _ => 0.875%float) (fun _ => 0.125%float) (Notebook [] ∅)
  = Some (Some (-100)%float, Some 1%Z, [(-99.625)%float]) /\
  PrimFloat.ltb (Nb.binsize / 2)%float ((-99.625) - (-100))%float = true.
Proof. split; vm_compute; reflexivity. Qed.

(** ** Runs of the data cell *)

Section CellTotal.
Context {T : Type} `{Float64 T}.
Local Open Scope np_scope.

(** The cell fails in two places only: a grid axis whose length is not
    finite, and an intensity that the Poisson sampler refuses. *)
Lemma cell_arrays_total (x_min x_max y_min y_max binsize : T) (true_pars : pars T)
    (draw : nat -> nat -> nat) (ux uy : nat -> T) (xs ys : list T) :
  np_arange x_min x_max binsize = Some xs ->
  np_arange y_min y_max binsize = Some ys ->
  forallb (fun v => (0 <=? v) && (v <=? poisson_lam_max))
    (mjoin (zip_with (zip_with (model_at true_pars))
              (fst (np_meshgrid xs ys)) (snd (np_meshgrid xs ys)))) = true ->
  exists r, cell_arrays x_min x_max y_min y_max binsize true_pars draw ux uy = Some r.
Proof.
  intros Exs Eys Hlam. unfold cell_arrays. rewrite Exs, Eys. cbn [mbind option_bind].
  pose proof (shape_meshgrid xs ys) as Exy.
  set (X := fst (np_meshgrid xs ys)) in *. set (Y := snd (np_meshgrid xs ys)) in *.
  rewrite (model_grid_zip X Y) by exact Exy. cbn [mbind option_bind].
  fold (model_at true_pars).
  set (lam := zip_with (zip_with (model_at true_pars)) X Y) in *.
  destruct (np_random_poisson lam draw) as [c |] eqn:Ep.
  2: { unfold np_random_poisson in Ep. rewrite Hlam in Ep. discriminate. }
  cbn [mbind option_bind].
  destruct (np_random_poisson_inv lam draw c Ep) as [Ec Fc].
  assert (Ecx : shape c = shape X).
  { rewrite Ec. unfold lam. apply shape_zip. exact Exy. }
  rewrite (np_repeat_Some (mjoin X) (mjoin c))
    by (try assumption; apply shape_length_join; symmetry; exact Ecx).
  rewrite (np_repeat_Some (mjoin Y) (mjoin c))
    by (try assumption; apply shape_length_join; rewrite <- Exy; symmetry; exact Ecx).
  cbn [mbind option_bind].
  destruct (jittered_total (repeat_each (mjoin X) (mjoin c)) ux) as [xx ->].
  destruct (jittered_total (repeat_each (mjoin Y) (mjoin c)) uy) as [yy ->].
  cbn [mbind option_bind]. eauto.
Qed.

(** The grid and the counts do not depend on the unit samples. *)
Lemma cell_arrays_dataset_indep
    (x_min x_max y_min y_max binsize : T) (true_pars : pars T)
    (draw : nat -> nat -> nat) (ux uy ux' uy' : nat -> T)
    (xb yb xb' yb' : list (list T)) (c c' : list (list Z)) (xx yy xx' yy' : list T) :
  cell_arrays x_min x_max y_min y_max binsize true_pars draw ux uy
  = Some (xb, yb, c, xx, yy) ->
  cell_arrays x_min x_max y_min y_max binsize true_pars draw ux' uy'
  = Some (xb', yb', c', xx', yy') ->
  xb = xb' /\ yb = yb' /\ c = c'.
Proof.
  unfold cell_arrays.
  destruct (np_arange x_min x_max binsize) as [xs |]; [| discriminate].
  destruct (np_arange y_min y_max binsize) as [ys |]; [| discriminate].
  cbn [mbind option_bind].
  destruct (model_grid _ _ _ _ _ _ _) as [lam |]; [| discriminate].
  cbn [mbind option_bind].
  destruct (np_random_poisson lam draw) as [c0 |]; [| discriminate].
  cbn [mbind option_bind].
  destruct (np_repeat (mjoin (np_meshgrid xs ys).1) (mjoin c0)) as [rx |]; [| discriminate].
  destruct (np_repeat (mjoin (np_meshgrid xs ys).2) (mjoin c0)) as [ry |]; [| discriminate].
  cbn [mbind option_bind].
  destruct (vec_zip f_add rx _) as [a1 |]; [| discriminate].
  destruct (vec_zip f_add ry _) as [a2 |]; [| discriminate].
  destruct (vec_zip f_add rx _) as [a3 |]; [| discriminate].
  destruct (vec_zip f_add ry _) as [a4 |]; [| discriminate].
  cbn [mbind option_bind].
  intros [= <- <- <- <- <-] [= <- <- <- <- <-]. repeat split.
Qed.

End CellTotal.


Section ForallbFacts.
Context {A B : Type}.

Lemma forallb_zip_row (P : A -> Prop) (f : A -> A -> B) (g : B -> bool)
    (r s : list A) :
  Forall P r -> Forall P s ->
  (forall x y, P x -> P y -> g (f x y) = true) ->
  forallb g (zip_with f r s) = true.
Proof.
  intros Hr Hs Hg. revert s Hs.
  induction Hr as [| x r Hx Hr IH]; intros s Hs; [reflexivity |].
  destruct Hs as [| y s Hy Hs]; [reflexivity |].
  cbn. rewrite (Hg x y Hx Hy). apply IH. exact Hs.
Qed.

Lemma forallb_zip_rows (P : A -> Prop) (f : A -> A -> B) (g : B -> bool)
    (X Y : list (list A)) :
  Forall (Forall P) X -> Forall (Forall P) Y ->
  (forall x y, P x -> P y -> g (f x y) = true) ->
  forallb g (mjoin (zip_with (zip_with f) X Y)) = true.
Proof.
  intros HX HY Hg. revert Y HY.
  induction HX as [| r X Hr HX IH]; intros Y HY; [reflexivity |].
  destruct HY as [| s Y Hs HY]; [reflexivity |].
  cbn. rewrite forallb_app, (forallb_zip_row P f g r s Hr Hs Hg). apply IH. exact HY.
Qed.

End ForallbFacts.

Section XCellTotal.
Local Open Scope R_scope.

(** Without rounding the difference of the first two values is the step,
    and value [i] is [start + i * step]. *)
Lemma arange_item_fin (a s : R) (i : nat) :
  arange_item (Fin a) (Fin s) i = Fin (a + IZR (Z.of_nat i) * s).
Proof.
  destruct i as [| [| i]].
  - unfold arange_item. f_equal. change (IZR (Z.of_nat 0)) with 0. lra.
  - unfold arange_item. rewrite add_fin. f_equal.
    change (IZR (Z.of_nat 1)) with 1. lra.
  - unfold arange_item. rewrite add_fin, sub_fin, of_Z_fin, mul_fin, add_fin.
    f_equal. ring.
Qed.

Lemma np_arange_fin (a b s : R) :
  s <> 0 ->
  exists xs : list xfloat,
    np_arange (Fin a) (Fin b) (Fin s) = Some xs /\ Forall is_fin xs.
Proof.
  intros Hs. unfold np_arange. rewrite sub_fin, div_fin by exact Hs.
  eexists. split; [reflexivity |].
  rewrite Forall_fmap. apply Forall_true. intros i.
  cbn [compose]. rewrite arange_item_fin. reflexivity.
Qed.

Lemma meshgrid_fin (xs ys : list xfloat) :
  Forall is_fin xs -> Forall is_fin ys ->
  Forall (Forall is_fin) (fst (np_meshgrid xs ys)) /\
  Forall (Forall is_fin) (snd (np_meshgrid xs ys)).
Proof.
  intros Hx Hy. unfold np_meshgrid. cbn [fst snd]. split.
  - apply Forall_replicate. exact Hx.
  - rewrite Forall_fmap. eapply Forall_impl; [exact Hy |].
    intros y Fy. apply Forall_replicate. exact Fy.
Qed.

Lemma leb_fin (a b : R) : f_leb (Fin a) (Fin b) = true <-> a <= b.
Proof.
  cbn. destruct (Rle_dec a b); split; intros; auto; discriminate.
Qed.

Lemma poisson_lam_max_fin : poisson_lam_max = Fin lam_max.
Proof.
  unfold poisson_lam_max. rewrite !of_Z_fin, sqrt_fin by lra.
  rewrite mul_fin, sub_fin. reflexivity.
Qed.

Lemma lam_max_lower : 9000000000000000000 <= lam_max.
Proof.
  unfold lam_max.
  assert (R_sqrt.sqrt 9223372036854775807 <= 4294967296).
  { rewrite <- (sqrt_square 4294967296) by lra. apply sqrt_le_1_alt. lra. }
  lra.
Qed.

Lemma Rintensity_le (sigma_background sigma_0 r_0 d : R) :
  0 < r_0 -> 0 <= sigma_0 -> 0 <= d ->
  Rintensity sigma_background sigma_0 r_0 d <= sigma_background + sigma_0.
Proof.
  intros Hr Hs Hd. unfold Rintensity.
  pose proof (ratio_nonneg d r_0 Hd Hr) as Hq.
  set (q := d / r_0) in *.
  assert (Hinv : / ((1 + q) * (1 + q)) <= 1).
  { rewrite <- Rinv_1. apply Rinv_le_contravar; nra. }
  unfold Rdiv. apply Rplus_le_compat_l.
  rewrite <- (Rmult_1_r sigma_0) at 2. apply Rmult_le_compat_l; assumption.
Qed.

(** On a finite grid, valid true parameters give intensities the sampler
    accepts. *)
Lemma model_in_poisson_range (x y : xfloat)
    (x_0 y_0 sigma_0 r_0 sigma_background : R) :
  0 < r_0 -> 0 <= sigma_0 -> 0 <= sigma_background ->
  sigma_background + sigma_0 <= lam_max ->
  is_fin x -> is_fin y ->
  (fun v => f_leb (f_of_Z 0) v && f_leb v poisson_lam_max)
    (model_at (Pars (Fin x_0) (Fin y_0) (Fin sigma_0) (Fin r_0)
                    (Fin sigma_background)) x y) = true.
Proof.
  intros Hr Hs Hb Hmax Fx Fy.
  destruct x as [a | | |]; try discriminate. destruct y as [b | | |]; try discriminate.
  unfold model_at. cbn [p_x_0 p_y_0 p_sigma_0 p_r_0 p_sigma_background].
  fold (model_fin a b x_0 y_0 sigma_0 r_0 sigma_background).
  rewrite model_fin_regular by (try lra; apply Rdist_neq_opp; exact Hr).
  pose proof (Rdist_nonneg a b x_0 y_0) as Hd.
  pose proof (Rintensity_nonneg sigma_background sigma_0 r_0 _ Hr Hs Hb Hd).
  pose proof (Rintensity_le sigma_background sigma_0 r_0 _ Hr Hs Hd).
  rewrite poisson_lam_max_fin, of_Z_fin. apply andb_true_intro.
  split; apply leb_fin; lra.
Qed.

(** On finite constants, with a nonzero bin size and valid true
    parameters below the sampler's limit, no step of the cell fails here,
    whatever the random outcome is.  The lemma exhibits runs of the cell;
    in the notebook numpy can still refuse an array for its size. *)
Lemma data_cell_total
    (x_min x_max y_min y_max binsize x_0 y_0 sigma_0 r_0 sigma_background : R)
    (draw : nat -> nat -> nat) (ux uy : nat -> xfloat) (s : notebook xfloat) :
  binsize <> 0 -> 0 < r_0 -> 0 <= sigma_0 -> 0 <= sigma_background ->
  sigma_background + sigma_0 <= lam_max ->
  exists s1 : notebook xfloat,
    data_cell (Fin x_min) (Fin x_max) (Fin y_min) (Fin y_max) (Fin binsize)
      (Pars (Fin x_0) (Fin y_0) (Fin sigma_0) (Fin r_0) (Fin sigma_background))
      draw ux uy s
    = Some (tt, s1).
Proof.
  intros Hb Hr Hs Hbg Hmax.
  destruct (np_arange_fin x_min x_max binsize Hb) as (xs & Exs & Fxs).
  destruct (np_arange_fin y_min y_max binsize Hb) as (ys & Eys & Fys).
  destruct (meshgrid_fin xs ys Fxs Fys) as [FX FY].
  destruct (cell_arrays_total (Fin x_min) (Fin x_max) (Fin y_min) (Fin y_max)
              (Fin binsize)
              (Pars (Fin x_0) (Fin y_0) (Fin sigma_0) (Fin r_0) (Fin sigma_background))
              draw ux uy xs ys Exs Eys) as [r Er].
  { apply (forallb_zip_rows is_fin); try assumption.
    intros x y Fx Fy. apply model_in_poisson_range; assumption. }
  rewrite data_cell_spec, Er. eauto.
Qed.

(** So for the notebook's own data cell, with its grid of 320 by 400
    cells: no step of it fails here, on any random outcome. *)
Lemma notebook_data_cell_total
    (draw : nat -> nat -> nat) (ux uy : nat -> xfloat) (s : notebook xfloat) :
  exists s1 : notebook xfloat, Nb.data_cell draw ux uy s = Some (tt, s1).
Proof.
  unfold Nb.data_cell, Nb.binsize. rewrite lit_half.
  pose proof lam_max_lower.
  apply (data_cell_total (-100) 100 (-80) 80 (/ 2) 0 0 100 10 10); lra.
Qed.

End XCellTotal.

(** * Further properties of the notebook's code *)

(** ** The profile *)

Section ProfileFacts.
Local Open Scope R_scope.

(** X1: for [r_0 > 0] and [sigma_0 >= 0] the model value at any point lies
    between the background level and the value at the centre,
    [sigma_background + sigma_0]; it is strictly above the background when
    [sigma_0 > 0]. *)
Theorem model_between_background_and_peak
    (x y x_0 y_0 sigma_0 r_0 sigma_background : R) :
  0 < r_0 -> 0 <= sigma_0 ->
  exists v : R,
    model_fin x y x_0 y_0 sigma_0 r_0 sigma_background = Fin v /\
    sigma_background <= v <= sigma_background + sigma_0 /\
    (0 < sigma_0 -> sigma_background < v).
Proof.
  intros Hr Hs. eexists. split.
  - apply model_fin_regular; [lra | apply Rdist_neq_opp; exact Hr].
  - pose proof (Rdist_nonneg x y x_0 y_0) as Hd.
    set (d := Rdist x y x_0 y_0) in *.
    pose proof (Rintensity_le sigma_background sigma_0 r_0 d Hr Hs Hd) as Hle.
    pose proof (ratio_nonneg d r_0 Hd Hr) as Hq.
    assert (Hden : 0 < (1 + d / r_0) * (1 + d / r_0)) by nra.
    pose proof (Rinv_0_lt_compat _ Hden) as Hinv.
    unfold Rintensity in *. unfold Rdiv at 1 3.
    split; [split; [| exact Hle] |].
    + assert (0 <= sigma_0 * / ((1 + d / r_0) * (1 + d / r_0))) by
        (apply Rmult_le_pos; lra). lra.
    + intros Hpos.
      assert (0 < sigma_0 * / ((1 + d / r_0) * (1 + d / r_0))) by
        (apply Rmult_lt_0_compat; lra). lra.
Qed.

Lemma model_between_background_and_peak_witness :
  0 < 10 /\ 0 <= 100 /\
  exists v : R,
    model_fin 3 4 0 0 100 10 10 = Fin v /\
    10 <= v <= 10 + 100 /\ (0 < 100 -> 10 < v).
Proof.
  split; [lra |]. split; [lra |].
  apply (model_between_background_and_peak 3 4 0 0 100 10 10); lra.
Defined.



End ProfileFacts.

(** ** The fit statistic on finite data *)

Section TermFacts.
Local Open Scope R_scope.

Lemma ln_le_minus_1 (t : R) : 0 < t -> ln t <= t - 1.
Proof.
  intros Ht. pose proof (exp_ineq1_le (ln t)) as H.
  rewrite exp_ln in H by exact Ht. lra.
Qed.

Lemma nll_term_fin (m : R) (x : Z) : nll_term (Fin m) x = Fin (Rterm m x).
Proof.
  unfold nll_term, Rterm.
  change (f_ltb (f_of_Z 0) (Fin m)) with (if Rlt_dec 0 m then true else false).
  change (f_log (Fin m))
    with (if Rlt_dec 0 m then Fin (ln m)
          else if Rlt_dec m 0 then NaN else NInf).
  destruct (Rlt_dec 0 m) as [Hm | Hm]; [| reflexivity].
  rewrite of_Z_fin, mul_fin, add_fin. f_equal. rewrite opp_IZR. ring.
Qed.

(** An intensity that has overflowed to infinity makes the summand of a
    cell with counts NaN: [-x * inf + inf]. *)
Example nll_term_overflow : nll_term PInf 7 = NaN.
Proof.
  change (nll_term PInf 7)
    with (XFloat.add (XFloat.mul (Fin (IZR (-7))) PInf) PInf).
  unfold XFloat.mul, XFloat.sign. rewrite Rsign_neg by lra. reflexivity.
Qed.

Lemma nll_term_nan (x : Z) : nll_term NaN x = Fin 1.
Proof. reflexivity. Qed.

Lemma saturated_le_Rterm (m : R) (x : Z) :
  (1 <= x)%Z -> saturated x <= Rterm m x.
Proof.
  intros Hx. apply IZR_le in Hx. unfold saturated, Rterm.
  set (X := IZR x) in *.
  destruct (Rlt_dec 0 m) as [Hm | Hm].
  - assert (Ht : 0 < m / X) by (apply Rdiv_lt_0_compat; lra).
    pose proof (ln_le_minus_1 (m / X) Ht) as H.
    unfold Rdiv in H at 1. rewrite ln_mult in H by (try lra; apply Rinv_0_lt_compat; lra).
    rewrite ln_Rinv in H by lra.
    assert (X * (ln m + - ln X) <= X * (m / X - 1)) by (apply Rmult_le_compat_l; lra).
    replace (X * (m / X - 1)) with (m - X) in * by (field; lra). lra.
  - assert (Ht : 0 < / X) by (apply Rinv_0_lt_compat; lra).
    pose proof (ln_le_minus_1 (/ X) Ht) as H.
    rewrite ln_Rinv in H by lra.
    assert (X * (- ln X) <= X * (/ X - 1)) by (apply Rmult_le_compat_l; lra).
    replace (X * (/ X - 1)) with (1 - X) in * by (field; lra). lra.
Qed.



(** The objective on the example dataset, two cells with the counts 7 and
    2: the intensities are 110 at the centre and 490/9 at distance 5, and
    the value is the sum of the two summands. *)
Example binned_nll_example_value :
  binned_nll_at example_pars example_state
  = Some (Fin ((110 - 7 * ln 110) + (490 / 9 - 2 * ln (490 / 9))), example_state).
Proof.
  rewrite (binned_nll_run example_state [[Fin 0; Fin 3]] [[Fin 0; Fin 4]]
             [[7; 2]]%Z example_pars) by (repeat split; reflexivity).
  do 2 f_equal.
  unfold objective_value, arr_sum, example_pars, model_at.
  cbn [zip_with mjoin list_join app fold_left
       p_x_0 p_y_0 p_sigma_0 p_r_0 p_sigma_background].
  fold (model_fin 0 0 0 0 100 10 10). fold (model_fin 3 4 0 0 100 10 10).
  assert (D0 : Rdist 0 0 0 0 = 0) by apply Rdist_centre.
  assert (D5 : Rdist 3 4 0 0 = 5).
  { unfold Rdist.
    replace ((3 - 0) * (3 - 0) + (4 - 0) * (4 - 0)) with (5 * 5) by lra.
    apply sqrt_square. lra. }
  rewrite !model_fin_regular by (rewrite ?D0, ?D5; lra).
  rewrite D0, D5, !nll_term_fin, of_Z_fin, !add_fin. f_equal.
  unfold Rintensity.
  replace (10 + 100 / ((1 + 0 / 10) * (1 + 0 / 10))) with 110 by (field; lra).
  replace (10 + 100 / ((1 + 5 / 10) * (1 + 5 / 10))) with (490 / 9) by (field; lra).
  unfold Rterm.
  destruct (Rlt_dec 0 110) as [_ | N]; [| lra].
  destruct (Rlt_dec 0 (490 / 9)) as [_ | N]; [| lra].
  lra.
Qed.

End TermFacts.

Section ZipForall.
Context {A B C : Type}.

Lemma Forall_zip_row (Q1 : A -> Prop) (Q2 : B -> Prop) (P : C -> Prop)
    (f : A -> B -> C) (r : list A) (s : list B) :
  Forall Q1 r -> Forall Q2 s ->
  (forall x y, Q1 x -> Q2 y -> P (f x y)) ->
  Forall P (zip_with f r s).
Proof.
  intros Hr Hs Hf. revert s Hs.
  induction Hr as [| x r Hx Hr IH]; intros s Hs; [constructor |].
  destruct Hs as [| y s Hy Hs]; [constructor |].
  cbn. constructor; [apply Hf; assumption | apply IH; exact Hs].
Qed.

Lemma Forall_zip_rows (Q1 : A -> Prop) (Q2 : B -> Prop) (P : C -> Prop)
    (f : A -> B -> C) (X : list (list A)) (Y : list (list B)) :
  Forall (Forall Q1) X -> Forall (Forall Q2) Y ->
  (forall x y, Q1 x -> Q2 y -> P (f x y)) ->
  Forall (Forall P) (zip_with (zip_with f) X Y).
Proof.
  intros HX HY Hf. revert Y HY.
  induction HX as [| r X Hr HX IH]; intros Y HY; [constructor |].
  destruct HY as [| s Y Hs HY]; [constructor |].
  cbn. constructor; [apply (Forall_zip_row Q1 Q2); assumption | apply IH; exact HY].
Qed.

Lemma Forall_join (P : A -> Prop) (X : list (list A)) :
  Forall (Forall P) X -> Forall P (mjoin X).
Proof.
  induction 1 as [| r X Hr HX IH]; [constructor |].
  cbn. apply Forall_app. split; assumption.
Qed.

Lemma Forall_rows_true (X : list (list A)) : Forall (Forall (fun _ => True)) X.
Proof. apply Forall_true. intros r. apply Forall_true. intros x. exact I. Qed.

Lemma Forall2_zip_row (Q1 : A -> Prop) (Q2 : B -> Prop) (R : C -> B -> Prop)
    (f : A -> B -> C) (r : list A) (s : list B) :
  length r = length s -> Forall Q1 r -> Forall Q2 s ->
  (forall x y, Q1 x -> Q2 y -> R (f x y) y) ->
  Forall2 R (zip_with f r s) s.
Proof.
  intros E Hr Hs Hf. revert s E Hs.
  induction Hr as [| x r Hx Hr IH]; intros [| y s] E Hs; try discriminate;
    [constructor |].
  apply Forall_cons in Hs as [Hy Hs].
  cbn. constructor; [apply Hf; assumption | apply IH; [cbn in E; lia | exact Hs]].
Qed.

Lemma Forall2_zip_rows (Q1 : A -> Prop) (Q2 : B -> Prop) (R : C -> B -> Prop)
    (f : A -> B -> C) (X : list (list A)) (Y : list (list B)) :
  shape X = shape Y -> Forall (Forall Q1) X -> Forall (Forall Q2) Y ->
  (forall x y, Q1 x -> Q2 y -> R (f x y) y) ->
  Forall2 R (mjoin (zip_with (zip_with f) X Y)) (mjoin Y).
Proof.
  intros E HX HY Hf. revert Y E HY.
  induction HX as [| r X Hr HX IH]; intros [| s Y] E HY; try discriminate;
    [constructor |].
  injection E as E1 E2. apply Forall_cons in HY as [Hs HY].
  cbn. apply Forall2_app.
  - apply (Forall2_zip_row Q1 Q2); assumption.
  - apply IH; assumption.
Qed.

End ZipForall.

Section ObjectiveBounds.
Local Open Scope R_scope.

Lemma model_fin_or_nan (x y : xfloat) (x_0 y_0 sigma_0 r_0 sigma_background : R) :
  0 <= r_0 -> is_fin x -> is_fin y ->
  fin_or_nan (model_at (Pars (Fin x_0) (Fin y_0) (Fin sigma_0) (Fin r_0)
                             (Fin sigma_background)) x y).
Proof.
  intros Hr Fx Fy.
  destruct x as [a | | |]; try discriminate. destruct y as [b | | |]; try discriminate.
  unfold model_at. cbn [p_x_0 p_y_0 p_sigma_0 p_r_0 p_sigma_background].
  fold (model_fin a b x_0 y_0 sigma_0 r_0 sigma_background).
  destruct (Req_dec_T r_0 0) as [-> | N].
  - destruct (Req_dec_T (Rdist a b x_0 y_0) 0) as [Ed | Nd].
    + left. apply model_fin_r0_zero_centre. exact Ed.
    + right. rewrite model_fin_r0_zero_off by exact Nd. reflexivity.
  - right. rewrite model_fin_regular; [reflexivity | exact N |].
    apply Rdist_neq_opp. lra.
Qed.

Lemma nll_term_is_fin (mu : xfloat) (x : Z) : fin_or_nan mu -> is_fin (nll_term mu x).
Proof.
  intros [-> | F]; [reflexivity |].
  destruct mu as [m | | |]; try discriminate. rewrite nll_term_fin. reflexivity.
Qed.

Lemma fold_add_fin (l : list xfloat) (a : R) :
  Forall is_fin l -> is_fin (fold_left f_add l (Fin a)).
Proof.
  intros Hl. revert a. induction Hl as [| v l Hv Hl IH]; intros a; [reflexivity |].
  destruct v as [b | | |]; try discriminate. cbn [fold_left]. rewrite add_fin. apply IH.
Qed.

Lemma objective_finite (xb yb : list (list xfloat)) (c : list (list Z))
    (x_0 y_0 sigma_0 r_0 sigma_background : R) :
  Forall (Forall is_fin) xb -> Forall (Forall is_fin) yb -> 0 <= r_0 ->
  is_fin (objective_value xb yb c
            (Pars (Fin x_0) (Fin y_0) (Fin sigma_0) (Fin r_0) (Fin sigma_background))).
Proof.
  intros Fx Fy Hr. unfold objective_value, arr_sum.
  rewrite of_Z_fin. apply fold_add_fin. apply Forall_join.
  apply (Forall_zip_rows fin_or_nan (fun _ => True)).
  - apply (Forall_zip_rows is_fin is_fin); try assumption.
    intros x y Hx Hy. apply model_fin_or_nan; assumption.
  - apply Forall_rows_true.
  - intros mu k Hmu _. apply nll_term_is_fin. exact Hmu.
Qed.

Lemma nll_term_above_saturated (mu : xfloat) (x : Z) :
  (1 <= x)%Z -> fin_or_nan mu ->
  exists t : R, nll_term mu x = Fin t /\ saturated x <= t.
Proof.
  intros Hx [-> | F].
  - exists 1. split; [reflexivity |].
    pose proof (saturated_le_Rterm 0 x Hx) as H. unfold Rterm in H.
    destruct (Rlt_dec 0 0); [lra | exact H].
  - destruct mu as [m | | |]; try discriminate.
    exists (Rterm m x). split; [apply nll_term_fin | apply saturated_le_Rterm; exact Hx].
Qed.

Lemma fold_add_above (l : list xfloat) (ks : list Z) (a : R) :
  Forall2 (fun v k => exists t : R, v = Fin t /\ saturated k <= t) l ks ->
  exists v : R,
    fold_left f_add l (Fin a) = Fin v /\ a + Rsum (saturated <$> ks) <= v.
Proof.
  intros Hl. revert a.
  induction Hl as [| v k l ks (t & -> & Ht) Hl IH]; intros a.
  - exists a. split; [reflexivity |].
    change (Rsum (saturated <$> [])) with 0. lra.
  - cbn [fold_left]. rewrite add_fin. destruct (IH (a + t)) as (w & Ew & Hw).
    exists w. split; [exact Ew |].
    change (Rsum (saturated <$> k :: ks))
      with (saturated k + Rsum (saturated <$> ks)). lra.
Qed.

Lemma objective_lower_bound (xb yb : list (list xfloat)) (c : list (list Z))
    (x_0 y_0 sigma_0 r_0 sigma_background : R) :
  Forall (Forall is_fin) xb -> Forall (Forall is_fin) yb ->
  shape xb = shape yb -> shape c = shape xb ->
  Forall (Forall (fun k => 1 <= k)%Z) c -> 0 <= r_0 ->
  exists v : R,
    objective_value xb yb c
      (Pars (Fin x_0) (Fin y_0) (Fin sigma_0) (Fin r_0) (Fin sigma_background))
    = Fin v /\
    Rsum (saturated <$> mjoin c) <= v.
Proof.
  intros Fx Fy Exy Ec Hc Hr. unfold objective_value, arr_sum. rewrite of_Z_fin.
  set (p := Pars _ _ _ _ _).
  set (mu := zip_with (zip_with (model_at p)) xb yb).
  assert (Fmu : Forall (Forall fin_or_nan) mu).
  { apply (Forall_zip_rows is_fin is_fin); try assumption.
    intros x y Hx Hy. apply model_fin_or_nan; assumption. }
  assert (Emu : shape mu = shape c).
  { unfold mu. rewrite shape_zip by exact Exy. symmetry. exact Ec. }
  destruct (fold_add_above (mjoin (zip_with (zip_with nll_term) mu c)) (mjoin c) 0)
    as (v & Ev & Hv).
  - apply (Forall2_zip_rows fin_or_nan (fun k => 1 <= k)%Z); try assumption.
    intros m k Hm Hk. apply nll_term_above_saturated; assumption.
  - exists v. split; [exact Ev | lra].
Qed.

(** X5: in exact arithmetic (rounding and overflow aside), on a finite
    grid the objective is a finite number for all finite parameters with
    [r_0 >= 0], whatever the signs of [sigma_0] and [sigma_background] and
    whatever the counts: the penalty takes the place of every intensity
    that is not positive, NaN included.  On binary64 an intensity can
    overflow ([model_float_overflow]), and the summand of a cell with
    counts is then NaN ([nll_term_overflow]). *)
Theorem binned_nll_finite (s : notebook xfloat) (xb yb : list (list xfloat))
    (c : list (list Z)) (x_0 y_0 sigma_0 r_0 sigma_background : R) :
  dataset s xb yb c ->
  Forall (Forall is_fin) xb -> Forall (Forall is_fin) yb -> 0 <= r_0 ->
  exists v : R,
    binned_nll_at (Pars (Fin x_0) (Fin y_0) (Fin sigma_0) (Fin r_0)
                        (Fin sigma_background)) s
    = Some (Fin v, s).
Proof.
  intros D Fx Fy Hr. rewrite (binned_nll_run s xb yb c _ D).
  pose proof (objective_finite xb yb c x_0 y_0 sigma_0 r_0 sigma_background
                Fx Fy Hr) as F.
  destruct (objective_value _ _ _ _) as [v | | |]; try discriminate.
  exists v. reflexivity.
Qed.

Lemma binned_nll_finite_witness :
  dataset example_state [[Fin 0; Fin 3]] [[Fin 0; Fin 4]] [[7; 2]]%Z /\
  Forall (Forall is_fin) [[Fin 0; Fin 3]] /\
  Forall (Forall is_fin) [[Fin 0; Fin 4]] /\ 0 <= 0 /\
  exists v : R,
    binned_nll_at (Pars (Fin 0) (Fin 0) (Fin (-5)) (Fin 0) (Fin (-1))) example_state
    = Some (Fin v, example_state).
Proof.
  assert (D : dataset example_state [[Fin 0; Fin 3]] [[Fin 0; Fin 4]] [[7; 2]]%Z)
    by (repeat split; reflexivity).
  assert (Fx : Forall (Forall is_fin) [[Fin 0; Fin 3]])
    by (repeat constructor).
  assert (Fy : Forall (Forall is_fin) [[Fin 0; Fin 4]])
    by (repeat constructor).
  split; [exact D |]. split; [exact Fx |]. split; [exact Fy |]. split; [lra |].
  apply (binned_nll_finite example_state _ _ _ 0 0 (-5) 0 (-1) D Fx Fy). lra.
Defined.

(** X6: in exact arithmetic (rounding and overflow aside), on a finite
    grid where every cell holds at least one count, the objective is
    bounded below, for all finite parameters with [r_0 >= 0], by the sum
    over the cells of [x - x * log(x)]: the value of a model that meets
    every count exactly. *)
Theorem binned_nll_lower_bound (s : notebook xfloat) (xb yb : list (list xfloat))
    (c : list (list Z)) (x_0 y_0 sigma_0 r_0 sigma_background : R) :
  dataset s xb yb c ->
  Forall (Forall is_fin) xb -> Forall (Forall is_fin) yb ->
  Forall (Forall (fun k => 1 <= k)%Z) c -> 0 <= r_0 ->
  exists v : R,
    binned_nll_at (Pars (Fin x_0) (Fin y_0) (Fin sigma_0) (Fin r_0)
                        (Fin sigma_background)) s
    = Some (Fin v, s) /\
    Rsum (saturated <$> mjoin c) <= v.
Proof.
  intros D Fx Fy Hc Hr. rewrite (binned_nll_run s xb yb c _ D).
  destruct D as (_ & _ & _ & Exy & Ec).
  destruct (objective_lower_bound xb yb c x_0 y_0 sigma_0 r_0 sigma_background
              Fx Fy Exy Ec Hc Hr) as (v & Ev & Hv).
  exists v. rewrite Ev. split; [reflexivity | exact Hv].
Qed.

Lemma binned_nll_lower_bound_witness :
  dataset example_state [[Fin 0; Fin 3]] [[Fin 0; Fin 4]] [[7; 2]]%Z /\
  Forall (Forall is_fin) [[Fin 0; Fin 3]] /\
  Forall (Forall is_fin) [[Fin 0; Fin 4]] /\
  Forall (Forall (fun k => 1 <= k)%Z) [[7; 2]]%Z /\ 0 <= 10 /\
  exists v : R,
    binned_nll_at (Pars (Fin 0) (Fin 0) (Fin 100) (Fin 10) (Fin 10)) example_state
    = Some (Fin v, example_state) /\
    Rsum (saturated <$> mjoin [[7; 2]]%Z) <= v.
Proof.
  assert (D : dataset example_state [[Fin 0; Fin 3]] [[Fin 0; Fin 4]] [[7; 2]]%Z)
    by (repeat split; reflexivity).
  assert (Fx : Forall (Forall is_fin) [[Fin 0; Fin 3]])
    by (repeat constructor).
  assert (Fy : Forall (Forall is_fin) [[Fin 0; Fin 4]])
    by (repeat constructor).
  assert (Fc : Forall (Forall (fun k => 1 <= k)%Z) [[7; 2]]%Z)
    by (repeat constructor; lia).
  split; [exact D |]. split; [exact Fx |]. split; [exact Fy |].
  split; [exact Fc |]. split; [lra |].
  apply (binned_nll_lower_bound example_state _ _ _ 0 0 100 10 10 D Fx Fy Fc). lra.
Defined.

End ObjectiveBounds.


Section Plateau.
Local Open Scope R_scope.

Lemma model_penalised (x y : xfloat) (x_0 y_0 sigma_0 r_0 sigma_background : R) :
  0 <= r_0 -> sigma_0 <= 0 -> sigma_background <= 0 -> is_fin x -> is_fin y ->
  penalised (model_at (Pars (Fin x_0) (Fin y_0) (Fin sigma_0) (Fin r_0)
                            (Fin sigma_background)) x y).
Proof.
  intros Hr Hs Hb Fx Fy.
  destruct x as [a | | |]; try discriminate. destruct y as [b | | |]; try discriminate.
  unfold model_at. cbn [p_x_0 p_y_0 p_sigma_0 p_r_0 p_sigma_background].
  fold (model_fin a b x_0 y_0 sigma_0 r_0 sigma_background).
  destruct (Req_dec_T r_0 0) as [-> | N].
  - destruct (Req_dec_T (Rdist a b x_0 y_0) 0) as [Ed | Nd].
    + left. apply model_fin_r0_zero_centre. exact Ed.
    + right. rewrite model_fin_r0_zero_off by exact Nd. eauto.
  - right. rewrite model_fin_regular; [| exact N | apply Rdist_neq_opp; lra].
    eexists. split; [reflexivity |].
    pose proof (Rdist_nonneg a b x_0 y_0) as Hd.
    set (d := Rdist a b x_0 y_0) in *.
    assert (Hrp : 0 < r_0) by lra.
    pose proof (ratio_nonneg d r_0 Hd Hrp) as Hq.
    assert (Hden : 0 < (1 + d / r_0) * (1 + d / r_0)) by nra.
    pose proof (Rinv_0_lt_compat _ Hden) as Hinv.
    unfold Rintensity, Rdiv at 1. nra.
Qed.

Lemma nll_term_penalised (mu : xfloat) (x : Z) : penalised mu -> nll_term mu x = Fin 1.
Proof.
  intros [-> | (v & -> & Hv)]; [reflexivity |].
  rewrite nll_term_fin. unfold Rterm.
  destruct (Rlt_dec 0 v); [lra | reflexivity].
Qed.

Lemma fold_add_ones (l : list xfloat) (a : R) :
  Forall (fun t => t = Fin 1) l ->
  fold_left f_add l (Fin a) = Fin (a + INR (length l)).
Proof.
  intros Hl. revert a. induction Hl as [| t l -> Hl IH]; intros a.
  - cbn. f_equal. lra.
  - cbn [fold_left]. rewrite add_fin, IH. f_equal.
    change (length (Fin 1 :: l)) with (S (length l)). rewrite S_INR. lra.
Qed.

Lemma objective_penalty_plateau (xb yb : list (list xfloat)) (c : list (list Z))
    (x_0 y_0 sigma_0 r_0 sigma_background : R) :
  Forall (Forall is_fin) xb -> Forall (Forall is_fin) yb ->
  shape xb = shape yb -> shape c = shape xb ->
  0 <= r_0 -> sigma_0 <= 0 -> sigma_background <= 0 ->
  objective_value xb yb c
    (Pars (Fin x_0) (Fin y_0) (Fin sigma_0) (Fin r_0) (Fin sigma_background))
  = Fin (INR (length (mjoin c))).
Proof.
  intros Fx Fy Exy Ec Hr Hs Hb. unfold objective_value, arr_sum. rewrite of_Z_fin.
  set (p := Pars _ _ _ _ _).
  set (mu := zip_with (zip_with (model_at p)) xb yb).
  assert (Emu : shape mu = shape c).
  { unfold mu. rewrite shape_zip by exact Exy. symmetry. exact Ec. }
  rewrite fold_add_ones.
  - f_equal. rewrite Rplus_0_l. f_equal.
    apply shape_length_join. rewrite shape_zip by exact Emu. exact Emu.
  - apply Forall_join.
    apply (Forall_zip_rows penalised (fun _ => True)).
    + apply (Forall_zip_rows is_fin is_fin); try assumption.
      intros x y Hx Hy. apply model_penalised; assumption.
    + apply Forall_rows_true.
    + intros m k Hm _. apply nll_term_penalised. exact Hm.
Qed.

(** X7: where no intensity is positive the objective does not look at the
    data: for finite parameters with [r_0 >= 0], [sigma_0 <= 0] and
    [sigma_background <= 0] it returns the number of grid cells, whatever
    the counts are. *)
Theorem binned_nll_penalty_plateau (s : notebook xfloat)
    (xb yb : list (list xfloat)) (c : list (list Z))
    (x_0 y_0 sigma_0 r_0 sigma_background : R) :
  dataset s xb yb c ->
  Forall (Forall is_fin) xb -> Forall (Forall is_fin) yb ->
  0 <= r_0 -> sigma_0 <= 0 -> sigma_background <= 0 ->
  binned_nll_at (Pars (Fin x_0) (Fin y_0) (Fin sigma_0) (Fin r_0)
                      (Fin sigma_background)) s
  = Some (Fin (INR (length (mjoin c))), s).
Proof.
  intros D Fx Fy Hr Hs Hb. rewrite (binned_nll_run s xb yb c _ D).
  destruct D as (_ & _ & _ & Exy & Ec).
  rewrite (objective_penalty_plateau xb yb c x_0 y_0 sigma_0 r_0 sigma_background)
    by assumption.
  reflexivity.
Qed.

Lemma binned_nll_penalty_plateau_witness :
  dataset example_state [[Fin 0; Fin 3]] [[Fin 0; Fin 4]] [[7; 2]]%Z /\
  Forall (Forall is_fin) [[Fin 0; Fin 3]] /\
  Forall (Forall is_fin) [[Fin 0; Fin 4]] /\
  0 <= 10 /\ -5 <= 0 /\ -1 <= 0 /\
  binned_nll_at (Pars (Fin 0) (Fin 0) (Fin (-5)) (Fin 10) (Fin (-1))) example_state
  = Some (Fin (INR (length (mjoin [[7; 2]]%Z))), example_state).
Proof.
  assert (D : dataset example_state [[Fin 0; Fin 3]] [[Fin 0; Fin 4]] [[7; 2]]%Z)
    by (repeat split; reflexivity).
  assert (Fx : Forall (Forall is_fin) [[Fin 0; Fin 3]])
    by (repeat constructor).
  assert (Fy : Forall (Forall is_fin) [[Fin 0; Fin 4]])
    by (repeat constructor).
  split; [exact D |]. split; [exact Fx |]. split; [exact Fy |].
  split; [lra |]. split; [lra |]. split; [lra |].
  apply (binned_nll_penalty_plateau example_state _ _ _ 0 0 (-5) 10 (-1) D Fx Fy);
    lra.
Defined.

End Plateau.

(** ** The grid *)

Section GridFacts.
Local Open Scope R_scope.

Lemma np_arange_xfloat (a b s : R) :
  s <> 0 ->
  np_arange (Fin a) (Fin b) (Fin s)
  = Some ((fun i : nat => Fin (a + IZR (Z.of_nat i) * s))
            <$> seq 0 (Z.to_nat (Zceil ((b - a) / s)))).
Proof.
  intros Hs. unfold np_arange. rewrite sub_fin, div_fin by exact Hs.
  cbn [f_ceil xfloat_ops XFloat.ceil]. f_equal.
  apply list_fmap_ext. intros _ i _. apply arange_item_fin.
Qed.

Lemma below_ceil (q : R) (k : nat) :
  (k < Z.to_nat (Zceil q))%nat -> IZR (Z.of_nat k) < q.
Proof.
  intros Hk. pose proof (Zceil_bound q) as [Hlo _].
  assert (Hz : (Z.of_nat k <= Zceil q - 1)%Z) by lia.
  apply IZR_le in Hz. rewrite minus_IZR in Hz. lra.
Qed.

(** A zero step: the length is a division by zero, infinite or NaN, and
    numpy refuses it. *)
Lemma np_arange_zero_step (a b : xfloat) : np_arange a b (Fin 0) = None.
Proof.
  unfold np_arange.
  assert (E : forall q : xfloat, f_ceil (f_div q (Fin 0)) = None).
  { intros [r | | |]; cbn; try reflexivity;
      destruct (Req_dec_T 0 0) as [_ | N]; try contradiction.
    - destruct (XFloat.Rsign r); reflexivity.
    - reflexivity.
    - reflexivity. }
  rewrite E. reflexivity.
Qed.

(** An interval that is not empty has a first point. *)
Lemma np_arange_first (a b s : R) :
  0 < s -> a < b ->
  exists xs : list xfloat,
    np_arange (Fin a) (Fin b) (Fin s) = Some xs /\ xs !! 0%nat = Some (Fin a).
Proof.
  intros Hs Hab. rewrite np_arange_xfloat by lra. eexists. split; [reflexivity |].
  assert (Hq : 0 < (b - a) / s) by (apply Rdiv_lt_0_compat; lra).
  pose proof (Zceil_bound ((b - a) / s)) as [_ Hhi].
  assert (Hpos : (0 < Zceil ((b - a) / s))%Z) by (apply lt_IZR; lra).
  rewrite list_lookup_fmap, lookup_seq_lt by lia.
  change ((fun i : nat => Fin (a + IZR (Z.of_nat i) * s)) <$> Some (0 + 0)%nat)
    with (Some (Fin (a + 0 * s))).
  do 2 f_equal. lra.
Qed.

End GridFacts.

Section MeshFacts.
Context {T : Type} `{Float64 T}.



Lemma meshgrid_get (xs ys : list T) (i j : nat) :
  i < length ys -> j < length xs ->
  arr_get (fst (np_meshgrid xs ys)) i j = xs !! j /\
  arr_get (snd (np_meshgrid xs ys)) i j = ys !! i.
Proof.
  intros Hi Hj. unfold np_meshgrid, arr_get. cbn [fst snd]. split.
  - rewrite lookup_replicate_2 by exact Hi. reflexivity.
  - rewrite list_lookup_fmap.
    destruct (lookup_lt_is_Some_2 ys i Hi) as [y Ey]. rewrite Ey. cbn.
    apply lookup_replicate_2. exact Hj.
Qed.

Lemma cell_arrays_grid (x_min x_max y_min y_max binsize : T) (true_pars : pars T)
    (draw : nat -> nat -> nat) (ux uy : nat -> T)
    (xb yb : list (list T)) (c : list (list Z)) (xx yy : list T) :
  cell_arrays x_min x_max y_min y_max binsize true_pars draw ux uy
  = Some (xb, yb, c, xx, yy) ->
  exists xs ys : list T,
    np_arange x_min x_max binsize = Some xs /\
    np_arange y_min y_max binsize = Some ys /\
    xb = fst (np_meshgrid xs ys) /\ yb = snd (np_meshgrid xs ys).
Proof.
  unfold cell_arrays.
  destruct (np_arange x_min x_max binsize) as [xs |]; [| discriminate].
  destruct (np_arange y_min y_max binsize) as [ys |]; [| discriminate].
  cbn [mbind option_bind].
  destruct (model_grid _ _ _ _ _ _ _) as [lam |]; [| discriminate].
  cbn [mbind option_bind].
  destruct (np_random_poisson lam draw) as [c0 |]; [| discriminate].
  cbn [mbind option_bind].
  destruct (np_repeat (mjoin (np_meshgrid xs ys).1) (mjoin c0)) as [rx |]; [| discriminate].
  destruct (np_repeat (mjoin (np_meshgrid xs ys).2) (mjoin c0)) as [ry |]; [| discriminate].
  cbn [mbind option_bind].
  destruct (vec_zip f_add rx _) as [a1 |]; [| discriminate].
  destruct (vec_zip f_add ry _) as [a2 |]; [| discriminate].
  cbn [mbind option_bind].
  intros [= <- <- <- <- <-]. exists xs, ys. repeat split.
Qed.


End MeshFacts.


(** The x axis of the notebook's grid on binary64: 400 values from -100 in
    steps of 0.5, every one exact, the last being 99.5. *)
Example notebook_axis_float :
  (xs ← np_arange (T := float) Nb.x_min Nb.x_max Nb.binsize;
   Some (length xs, xs !! 0%nat, xs !! 1%nat, xs !! 399%nat))
  = Some (400%nat, Some (-100)%float, Some (-99.5)%float, Some 99.5%float).
Proof. vm_compute. reflexivity. Qed.

(** ** The data cell and the names it binds *)

Section FrameFacts.
Context {T : Type} `{Float64 T}.



Lemma load_float2_None (name : string) (s : notebook T) :
  globals s !! name = None -> load_float2 name s = None.
Proof. intros E. unfold load_float2, bind, name_lookup. rewrite E. reflexivity. Qed.

Lemma load_int2_None (name : string) (s : notebook T) :
  globals s !! name = None -> load_int2 name s = None.
Proof. intros E. unfold load_int2, bind, name_lookup. rewrite E. reflexivity. Qed.

Lemma load_float2_state (name : string) (s s' : notebook T) (a : list (list T)) :
  load_float2 name s = Some (a, s') -> s' = s.
Proof.
  unfold load_float2, bind, name_lookup, deref, ret, raise.
  destruct (globals s !! name) as [l |]; [| discriminate].
  destruct (heap s !! l) as [[v | a' | a' | a'] |]; try discriminate.
  intros [= _ <-]. reflexivity.
Qed.

(** X10: [binned_nll] reads [xbin], [ybin] and [counts] from the globals
    at each call: where one of the three names is unbound the call raises,
    whatever the parameters. *)
Theorem binned_nll_unbound `{Float64Log T} (p : pars T) (s : notebook T) :
  globals s !! "xbin" = None \/ globals s !! "ybin" = None
  \/ globals s !! "counts" = None ->
  binned_nll_at p s = None.
Proof.
  intros Hu. unfold binned_nll_at, binned_nll.
  destruct Hu as [Hx | [Hy | Hc]].
  - unfold bind at 1. rewrite (load_float2_None _ _ Hx). reflexivity.
  - unfold bind at 1.
    destruct (load_float2 "xbin" s) as [[xb s1] |] eqn:Ex; [| reflexivity].
    apply load_float2_state in Ex as ->.
    unfold bind at 1. rewrite (load_float2_None _ _ Hy). reflexivity.
  - unfold bind at 1.
    destruct (load_float2 "xbin" s) as [[xb s1] |] eqn:Ex; [| reflexivity].
    apply load_float2_state in Ex as ->.
    unfold bind at 1.
    destruct (load_float2 "ybin" s) as [[yb s1] |] eqn:Ey; [| reflexivity].
    apply load_float2_state in Ey as ->.
    unfold bind at 1.
    destruct (model_grid xb yb _ _ _ _ _) as [mu |]; [| reflexivity].
    cbn [lift]. unfold bind at 1. rewrite (load_int2_None _ _ Hc). reflexivity.
Qed.

(** X12: the objective after the data cell does not depend on the session
    the cell started from, nor on the jitter of the events.  When two runs
    of the cell with the same constants, true parameters and Poisson draws
    return, from whatever states and with whatever unit samples,
    [binned_nll] returns on both resulting states, with the same value at
    every parameter tuple: the in-place additions to [xx] and [yy] do not
    reach the grid or the counts. *)
Theorem objective_after_data_cell `{Float64Log T}
    (x_min x_max y_min y_max binsize : T) (true_pars : pars T)
    (draw : nat -> nat -> nat) (ux uy ux' uy' : nat -> T)
    (s0 s0' s1 s2 : notebook T) :
  data_cell x_min x_max y_min y_max binsize true_pars draw ux uy s0
  = Some (tt, s1) ->
  data_cell x_min x_max y_min y_max binsize true_pars draw ux' uy' s0'
  = Some (tt, s2) ->
  forall p : pars T,
    exists v : T,
      binned_nll_at p s1 = Some (v, s1) /\ binned_nll_at p s2 = Some (v, s2).
Proof.
  rewrite !data_cell_spec.
  destruct (cell_arrays _ _ _ _ _ _ _ ux uy) as [[[[[xb yb] c] xx] yy] |] eqn:E1;
    [| discriminate].
  destruct (cell_arrays _ _ _ _ _ _ _ ux' uy') as [[[[[xb' yb'] c'] xx'] yy'] |] eqn:E2;
    [| discriminate].
  intros [= <-] [= <-] p.
  destruct (cell_arrays_dataset_indep _ _ _ _ _ _ _ _ _ _ _ _ _ _ _ _ _ _ _ _ _ E1 E2)
    as (<- & <- & <-).
  destruct (cell_arrays_inv _ _ _ _ _ _ _ _ _ _ _ _ _ _ E1) as (Exy & Ec & _).
  destruct (cell_state_loads s0 x_min x_max y_min y_max binsize xb yb c xx yy)
    as (Lx & Ly & Lc & _).
  destruct (cell_state_loads s0' x_min x_max y_min y_max binsize xb yb c xx' yy')
    as (Lx' & Ly' & Lc' & _).
  exists (objective_value xb yb c p).
  split; apply binned_nll_run; repeat split; assumption.
Qed.

End FrameFacts.


Lemma binned_nll_unbound_witness :
  (globals fresh_state !! "xbin" = None \/ globals fresh_state !! "ybin" = None
   \/ globals fresh_state !! "counts" = None) /\
  binned_nll_at example_pars fresh_state = None.
Proof.
  assert (E : globals fresh_state !! "xbin" = None \/
              globals fresh_state !! "ybin" = None \/
              globals fresh_state !! "counts" = None)
    by (left; reflexivity).
  split; [exact E |]. apply (binned_nll_unbound example_pars fresh_state E).
Defined.

Section CellOutcome.
Local Open Scope R_scope.

Lemma objective_after_data_cell_witness :
  exists s1 s2 : notebook xfloat,
    data_cell (Fin (-100)) (Fin 100) (Fin (-80)) (Fin 80) (Fin (/ 2))
      example_pars (fun _ _ => 1%nat) (fun _ => Fin (/ 2)) (fun _ => Fin (/ 4))
      fresh_state
    = Some (tt, s1) /\
    data_cell (Fin (-100)) (Fin 100) (Fin (-80)) (Fin 80) (Fin (/ 2))
      example_pars (fun _ _ => 1%nat) (fun _ => Fin 0) (fun _ => Fin (/ 8))
      example_state
    = Some (tt, s2) /\
    forall p : pars xfloat,
      exists v : xfloat,
        binned_nll_at p s1 = Some (v, s1) /\ binned_nll_at p s2 = Some (v, s2).
Proof.
  assert (Hmax : 10 + 100 <= lam_max) by (pose proof lam_max_lower; lra).
  destruct (data_cell_total (-100) 100 (-80) 80 (/ 2) 0 0 100 10 10
              (fun _ _ => 1%nat) (fun _ => Fin (/ 2)) (fun _ => Fin (/ 4))
              fresh_state) as [s1 E1]; [lra | lra | lra | lra | exact Hmax |].
  destruct (data_cell_total (-100) 100 (-80) 80 (/ 2) 0 0 100 10 10
              (fun _ _ => 1%nat) (fun _ => Fin 0) (fun _ => Fin (/ 8))
              example_state) as [s2 E2]; [lra | lra | lra | lra | exact Hmax |].
  exists s1, s2. split; [exact E1 |]. split; [exact E2 |].
  exact (objective_after_data_cell _ _ _ _ _ _ _ _ _ _ _ _ _ _ _ E1 E2).
Defined.

(** ** Where the data cell raises *)

(** X11: a bin size of zero makes the data cell raise, whatever the domain,
    the true parameters, the random outcome and the session: the first
    [np.arange] divides by it for its length. *)
Theorem data_cell_zero_binsize (x_min x_max y_min y_max : xfloat)
    (true_pars : pars xfloat) (draw : nat -> nat -> nat) (ux uy : nat -> xfloat)
    (s : notebook xfloat) :
  data_cell x_min x_max y_min y_max (Fin 0) true_pars draw ux uy s = None.
Proof.
  rewrite data_cell_spec. unfold cell_arrays.
  rewrite (np_arange_zero_step x_min x_max). reflexivity.
Qed.

End CellOutcome.

(** The same on binary64, with the notebook's domain. *)
Example data_cell_float_zero_binsize :
  data_cell (T := float) Nb.x_min Nb.x_max Nb.y_min Nb.y_max 0%float Nb.true_pars
    (fun _ _ => 1%nat) (fun _ => 0.875%float) (fun _ => 0.125%float)
    (Notebook [] ∅)
  = None.
Proof. vm_compute. reflexivity. Qed.

(** ** Where the events fall *)

Section GridInCell.
Context {T : Type} `{Float64 T}.

Lemma meshgrid_Forall (P Q : T -> Prop) (xs ys : list T) :
  Forall P xs -> Forall Q ys ->
  Forall (Forall P) (fst (np_meshgrid xs ys)) /\
  Forall (Forall Q) (snd (np_meshgrid xs ys)).
Proof.
  intros Hx Hy. unfold np_meshgrid. cbn [fst snd]. split.
  - apply Forall_replicate. exact Hx.
  - rewrite Forall_fmap. eapply Forall_impl; [exact Hy |].
    intros y Fy. apply Forall_replicate. exact Fy.
Qed.

Lemma Forall_repeat_each {A : Type} (P : A -> Prop) (a : list A) (reps : list Z) :
  Forall P a -> Forall P (repeat_each a reps).
Proof.
  intros Ha. apply Forall_forall. intros x Hx.
  apply elem_of_repeat_each in Hx. rewrite Forall_forall in Ha. apply Ha. exact Hx.
Qed.

End GridInCell.

Section EventDomain.
Local Open Scope R_scope.

Lemma np_arange_in_range (a b s : R) (xs : list xfloat) :
  0 < s -> np_arange (Fin a) (Fin b) (Fin s) = Some xs ->
  Forall (in_range a b) xs.
Proof.
  intros Hs E. rewrite np_arange_xfloat in E by lra. injection E as <-.
  rewrite Forall_fmap. apply Forall_forall. intros k Hk.
  apply elem_of_seq in Hk as [_ Hk]. cbn in Hk.
  exists (a + IZR (Z.of_nat k) * s). split; [reflexivity |].
  pose proof (below_ceil _ k Hk) as Hq.
  assert (0 <= IZR (Z.of_nat k)) by (apply IZR_le; lia).
  assert (IZR (Z.of_nat k) * s < (b - a) / s * s)
    by (apply Rmult_lt_compat_r; assumption).
  replace ((b - a) / s * s) with (b - a) in * by (field; lra).
  split; nra.
Qed.

Lemma jittered_in_range (lo hi : R) (r out : list xfloat) (u : nat -> xfloat) :
  unit_samples u -> Forall (in_range lo hi) r ->
  vec_zip f_add r (np_random_uniform (f_neg (f_lit (1 # 2))) (f_lit (1 # 2)) (length r) u)
  = Some out ->
  length out = length r /\
  forall k : nat, (k < length out)%nat ->
    exists a : R, out !! k = Some (Fin a) /\ lo - / 2 <= a < hi + / 2.
Proof.
  intros Hu Hr E. destruct (jittered_inv r out u E) as [L J].
  split; [exact L |]. intros k Hk. rewrite L in Hk.
  destruct (lookup_lt_is_Some_2 r k Hk) as [x Hx].
  rewrite Forall_forall in Hr.
  destruct (Hr x (list_elem_of_lookup_2 _ _ _ Hx)) as (g & -> & Hg).
  destruct (Hu k) as (q & Eq & Hq).
  destruct (jitter_range u k q Eq Hq) as [Ej Hj].
  exists (g + (q - / 2)). split; [| lra].
  rewrite (J k _ Hx), Ej. reflexivity.
Qed.

(** X14: for a positive [binsize] and jitter samples from the unit
    interval, when the data cell returns, [xx] and [yy] are two arrays of
    the same length, and every event lies within half a unit of the domain:
    [x_min - 0.5 <= xx[k] < x_max + 0.5] and
    [y_min - 0.5 <= yy[k] < y_max + 0.5] (in exact arithmetic: rounding
    aside). *)
Theorem events_in_domain
    (x_min x_max y_min y_max binsize : R) (true_pars : pars xfloat)
    (draw : nat -> nat -> nat) (ux uy : nat -> xfloat) (s0 s1 : notebook xfloat) :
  0 < binsize -> unit_samples ux -> unit_samples uy ->
  data_cell (Fin x_min) (Fin x_max) (Fin y_min) (Fin y_max) (Fin binsize)
    true_pars draw ux uy s0 = Some (tt, s1) ->
  exists xx yy : list xfloat,
    load_float1 "xx" s1 = Some (xx, s1) /\
    load_float1 "yy" s1 = Some (yy, s1) /\
    length xx = length yy /\
    forall k : nat, (k < length xx)%nat ->
      exists a b : R,
        xx !! k = Some (Fin a) /\ yy !! k = Some (Fin b) /\
        x_min - / 2 <= a < x_max + / 2 /\
        y_min - / 2 <= b < y_max + / 2.
Proof.
  intros Hbin Hux Huy E.
  rewrite data_cell_spec in E.
  destruct (cell_arrays _ _ _ _ _ _ _ _ _) as [[[[[xb yb] c] xx] yy] |] eqn:Ec;
    [| discriminate].
  injection E as <-.
  exists xx, yy.
  destruct (cell_state_loads s0 (Fin x_min) (Fin x_max) (Fin y_min) (Fin y_max)
              (Fin binsize) xb yb c xx yy) as (_ & _ & _ & Lxx & Lyy).
  split; [exact Lxx |]. split; [exact Lyy |].
  destruct (cell_arrays_grid _ _ _ _ _ _ _ _ _ _ _ _ _ _ Ec)
    as (xs & ys & Exs & Eys & -> & ->).
  destruct (cell_arrays_inv _ _ _ _ _ _ _ _ _ _ _ _ _ _ Ec)
    as (Exy & Ecs & Fc & _ & _ & _ & Jx & Jy).
  pose proof (np_arange_in_range _ _ _ _ Hbin Exs) as Rx.
  pose proof (np_arange_in_range _ _ _ _ Hbin Eys) as Ry.
  destruct (meshgrid_Forall _ _ xs ys Rx Ry) as [RX RY].
  set (X := fst (np_meshgrid xs ys)) in *. set (Y := snd (np_meshgrid xs ys)) in *.
  assert (FX : Forall (in_range x_min x_max) (repeat_each (mjoin X) (mjoin c))).
  { apply Forall_repeat_each, Forall_join. exact RX. }
  assert (FY : Forall (in_range y_min y_max) (repeat_each (mjoin Y) (mjoin c))).
  { apply Forall_repeat_each, Forall_join. exact RY. }
  destruct (jittered_in_range _ _ _ _ _ Hux FX Jx) as [Lx Px].
  destruct (jittered_in_range _ _ _ _ _ Huy FY Jy) as [Ly Py].
  destruct (origins_spec X c Ecs Fc) as (Ox & _).
  assert (Ecy : shape c = shape Y) by (rewrite Ecs; exact Exy).
  destruct (origins_spec Y c Ecy Fc) as (Oy & _).
  assert (L : length xx = length yy) by (rewrite Lx, Ly, <- Ox, <- Oy; reflexivity).
  split; [exact L |].
  intros k Hk. destruct (Px k Hk) as (a & Ea & Ha).
  rewrite L in Hk. destruct (Py k Hk) as (b & Eb & Hb').
  exists a, b. repeat split; assumption || lra.
Qed.

Lemma events_in_domain_witness :
  0 < / 2 /\
  unit_samples (fun _ => Fin (/ 2)) /\ unit_samples (fun _ => Fin (/ 4)) /\
  exists s1 : notebook xfloat,
    data_cell (Fin (-100)) (Fin 100) (Fin (-80)) (Fin 80) (Fin (/ 2))
      example_pars (fun _ _ => 1%nat) (fun _ => Fin (/ 2)) (fun _ => Fin (/ 4))
      fresh_state
    = Some (tt, s1) /\
    exists xx yy : list xfloat,
      load_float1 "xx" s1 = Some (xx, s1) /\
      load_float1 "yy" s1 = Some (yy, s1) /\
      length xx = length yy /\
      forall k : nat, (k < length xx)%nat ->
        exists a b : R,
          xx !! k = Some (Fin a) /\ yy !! k = Some (Fin b) /\
          -100 - / 2 <= a < 100 + / 2 /\
          -80 - / 2 <= b < 80 + / 2.
Proof.
  assert (Hmax : 10 + 100 <= lam_max) by (pose proof lam_max_lower; lra).
  assert (U2 : unit_samples (fun _ => Fin (/ 2)))
    by (intros k; exists (/ 2); split; [reflexivity | lra]).
  assert (U4 : unit_samples (fun _ => Fin (/ 4)))
    by (intros k; exists (/ 4); split; [reflexivity | lra]).
  split; [lra |]. split; [exact U2 |]. split; [exact U4 |].
  destruct (data_cell_total (-100) 100 (-80) 80 (/ 2) 0 0 100 10 10
              (fun _ _ => 1%nat) (fun _ => Fin (/ 2)) (fun _ => Fin (/ 4))
              fresh_state) as [s1 E1]; [lra | lra | lra | lra | exact Hmax |].
  exists s1. split; [exact E1 |].
  apply (events_in_domain (-100) 100 (-80) 80 (/ 2) example_pars
           (fun _ _ => 1%nat) (fun _ => Fin (/ 2)) (fun _ => Fin (/ 4))
           fresh_state s1); [lra | exact U2 | exact U4 | exact E1].
Defined.

End EventDomain.

(** ** An empty domain *)

Section EmptyGrid.
Local Open Scope R_scope.

Lemma np_arange_empty (a b s : R) :
  0 < s -> b <= a -> np_arange (Fin a) (Fin b) (Fin s) = Some [].
Proof.
  intros Hs Hab. rewrite np_arange_xfloat by lra.
  assert (Hz : (Zceil ((b - a) / s) <= 0)%Z).
  { apply le_IZR. pose proof (Zceil_bound ((b - a) / s)) as [Hlo _].
    assert ((b - a) / s <= 0).
    { pose proof (Rinv_0_lt_compat s Hs). unfold Rdiv. nra. }
    assert (Hlt : IZR (Zceil ((b - a) / s)) < 1) by lra.
    apply lt_IZR in Hlt. apply IZR_le. lia. }
  replace (Z.to_nat (Zceil ((b - a) / s))) with 0%nat by lia. reflexivity.
Qed.

Lemma join_empty_rows {A : Type} (n : nat) : mjoin (replicate n (@nil A)) = [].
Proof. induction n as [| n IH]; [reflexivity | exact IH]. Qed.

Lemma join_nil_of_shape {A B : Type} (a : list (list A)) (b : list (list B)) :
  shape a = shape b -> mjoin a = [] -> mjoin b = [].
Proof.
  intros E Ha. apply nil_length_inv.
  rewrite <- (shape_length_join a b E), Ha. reflexivity.
Qed.

(** X15: an empty domain gives an empty dataset.  For a positive
    [binsize] and [x_max <= x_min], when the data cell returns, for any
    true parameters and any draws, [xx] and [yy] are empty, and the
    objective on the state it leaves is zero at every parameter tuple. *)
Theorem data_cell_empty_domain
    (x_min x_max y_min y_max binsize : R) (true_pars : pars xfloat)
    (draw : nat -> nat -> nat) (ux uy : nat -> xfloat) (s0 s1 : notebook xfloat) :
  0 < binsize -> x_max <= x_min ->
  data_cell (Fin x_min) (Fin x_max) (Fin y_min) (Fin y_max) (Fin binsize)
    true_pars draw ux uy s0 = Some (tt, s1) ->
  load_float1 "xx" s1 = Some ([], s1) /\
  load_float1 "yy" s1 = Some ([], s1) /\
  forall p : pars xfloat, binned_nll_at p s1 = Some (Fin 0, s1).
Proof.
  intros Hs Hx E. rewrite data_cell_spec in E.
  destruct (cell_arrays _ _ _ _ _ _ _ _ _) as [[[[[xb yb] c] xx] yy] |] eqn:Ec;
    [| discriminate].
  injection E as <-.
  destruct (cell_state_loads s0 (Fin x_min) (Fin x_max) (Fin y_min) (Fin y_max)
              (Fin binsize) xb yb c xx yy) as (Lx & Ly & Lc & Lxx & Lyy).
  destruct (cell_arrays_grid _ _ _ _ _ _ _ _ _ _ _ _ _ _ Ec)
    as (xs & ys & Exs & Eys & EX & EY).
  destruct (cell_arrays_inv _ _ _ _ _ _ _ _ _ _ _ _ _ _ Ec)
    as (Exy & Ecs & Fc & _ & _ & _ & Jx & Jy).
  rewrite (np_arange_empty x_min x_max binsize Hs Hx) in Exs.
  injection Exs as <-.
  assert (JX : mjoin xb = []) by (rewrite EX; apply join_empty_rows).
  assert (JY : mjoin yb = []) by (apply (join_nil_of_shape xb yb); assumption).
  assert (JC : mjoin c = []).
  { apply (join_nil_of_shape xb c); [symmetry; exact Ecs | exact JX]. }
  rewrite JX, JC in Jx. rewrite JY, JC in Jy.
  destruct (jittered_inv _ _ _ Jx) as [L1 _].
  destruct (jittered_inv _ _ _ Jy) as [L2 _].
  apply nil_length_inv in L1. apply nil_length_inv in L2. subst xx yy.
  split; [exact Lxx |]. split; [exact Lyy |].
  intros p.
  rewrite (binned_nll_run _ xb yb c p) by (repeat split; assumption).
  do 2 f_equal. unfold objective_value, arr_sum.
  set (mu := zip_with (zip_with (model_at p)) xb yb).
  assert (Em : shape mu = shape xb) by (apply shape_zip; exact Exy).
  assert (Jt : mjoin (zip_with (zip_with nll_term) mu c) = []).
  { apply (join_nil_of_shape xb); [| exact JX].
    rewrite shape_zip; [symmetry; exact Em |]. rewrite Em. symmetry. exact Ecs. }
  rewrite Jt. reflexivity.
Qed.

Lemma data_cell_empty_domain_witness :
  0 < / 2 /\ 0 <= 1 /\
  exists s1 : notebook xfloat,
    data_cell (Fin 1) (Fin 0) (Fin (-80)) (Fin 80) (Fin (/ 2))
      example_pars (fun _ _ => 1%nat) (fun _ => Fin (/ 2)) (fun _ => Fin (/ 4))
      fresh_state
    = Some (tt, s1) /\
    load_float1 "xx" s1 = Some ([], s1) /\
    load_float1 "yy" s1 = Some ([], s1) /\
    forall p : pars xfloat, binned_nll_at p s1 = Some (Fin 0, s1).
Proof.
  assert (Hmax : 10 + 100 <= lam_max) by (pose proof lam_max_lower; lra).
  split; [lra |]. split; [lra |].
  destruct (data_cell_total 1 0 (-80) 80 (/ 2) 0 0 100 10 10
              (fun _ _ => 1%nat) (fun _ => Fin (/ 2)) (fun _ => Fin (/ 4))
              fresh_state) as [s1 E1]; [lra | lra | lra | lra | exact Hmax |].
  exists s1. split; [exact E1 |].
  apply (data_cell_empty_domain 1 0 (-80) 80 (/ 2) example_pars
           (fun _ _ => 1%nat) (fun _ => Fin (/ 2)) (fun _ => Fin (/ 4))
           fresh_state s1); [lra | lra | exact E1].
Defined.

End EmptyGrid.

(** The same on binary64: the cell returns, and [xx] is empty. *)
Example data_cell_float_empty_domain :
  fst <$> (let* _ := data_cell (T := float) 1%float 0%float Nb.y_min Nb.y_max
                       Nb.binsize Nb.true_pars (fun _ _ => 1%nat)
                       (fun _ => 0.875%float) (fun _ => 0.125%float) in
           load_float1 "xx") (Notebook [] ∅)
  = Some [].
Proof. vm_compute. reflexivity. Qed.

(** ** The sampler's refusal *)

Section Refusal.
Local Open Scope R_scope.

Lemma Rintensity_negative (sigma_background sigma_0 r_0 d : R) :
  0 < r_0 -> 0 <= d -> sigma_0 <= 0 -> sigma_background < 0 ->
  Rintensity sigma_background sigma_0 r_0 d < 0.
Proof.
  intros Hr Hd Hs Hb. unfold Rintensity.
  pose proof (ratio_nonneg d r_0 Hd Hr) as Hq.
  set (q := d / r_0) in *.
  assert (Hpos : 0 < / ((1 + q) * (1 + q))) by (apply Rinv_0_lt_compat; nra).
  unfold Rdiv. nra.
Qed.

(** X17: [np.random.poisson] refuses a negative intensity.  With true
    parameters [r_0 > 0], [sigma_0 <= 0] and [sigma_background < 0] the
    model is negative everywhere, and the data cell raises on every domain
    that is not empty, whatever the random outcome and the session (in
    exact arithmetic: on binary64 the length of an axis can underflow to
    zero, and a cell without a grid has nothing to refuse). *)
Theorem data_cell_negative_intensity
    (x_min x_max y_min y_max binsize x_0 y_0 sigma_0 r_0 sigma_background : R)
    (draw : nat -> nat -> nat) (ux uy : nat -> xfloat) (s : notebook xfloat) :
  0 < binsize -> x_min < x_max -> y_min < y_max ->
  0 < r_0 -> sigma_0 <= 0 -> sigma_background < 0 ->
  data_cell (Fin x_min) (Fin x_max) (Fin y_min) (Fin y_max) (Fin binsize)
    (Pars (Fin x_0) (Fin y_0) (Fin sigma_0) (Fin r_0) (Fin sigma_background))
    draw ux uy s
  = None.
Proof.
  intros Hbin Hx Hy Hr Hs Hb.
  rewrite data_cell_spec. unfold cell_arrays.
  destruct (np_arange_first x_min x_max binsize Hbin Hx) as (xs & -> & Hx0).
  destruct (np_arange_first y_min y_max binsize Hbin Hy) as (ys & -> & Hy0).
  cbn [mbind option_bind].
  rewrite (model_grid_zip (fst (np_meshgrid xs ys)) (snd (np_meshgrid xs ys)))
    by apply shape_meshgrid.
  cbn [mbind option_bind p_x_0 p_y_0 p_sigma_0 p_r_0 p_sigma_background].
  set (m := fun x y : xfloat =>
              model x y (Fin x_0) (Fin y_0) (Fin sigma_0) (Fin r_0)
                    (Fin sigma_background)).
  set (lam := zip_with (zip_with m) _ _).
  assert (G : arr_get lam 0 0 = Some (m (Fin x_min) (Fin y_min))).
  { unfold lam. apply arr_get_zip.
    - destruct (meshgrid_get xs ys 0 0) as [-> _];
        [eapply lookup_lt_Some; exact Hy0 | eapply lookup_lt_Some; exact Hx0 |].
      exact Hx0.
    - destruct (meshgrid_get xs ys 0 0) as [_ ->];
        [eapply lookup_lt_Some; exact Hy0 | eapply lookup_lt_Some; exact Hx0 |].
      exact Hy0. }
  assert (In (m (Fin x_min) (Fin y_min)) (mjoin lam)) as Hin.
  { apply list_elem_of_In, list_elem_of_join. unfold arr_get in G.
    destruct (lam !! 0%nat) as [row |] eqn:Erow; [| discriminate].
    exists row. split; eapply list_elem_of_lookup_2; eassumption. }
  assert (P : np_random_poisson lam draw = None).
  { unfold np_random_poisson.
    destruct (forallb _ (mjoin lam)) eqn:F; [exfalso | reflexivity].
    rewrite forallb_forall in F. specialize (F _ Hin). cbv beta in F.
    apply andb_prop in F as [F _].
    unfold m in F.
    fold (model_fin x_min y_min x_0 y_0 sigma_0 r_0 sigma_background) in F.
    rewrite model_fin_regular in F by (try lra; apply Rdist_neq_opp; exact Hr).
    rewrite of_Z_fin in F. apply leb_fin in F.
    pose proof (Rintensity_negative sigma_background sigma_0 r_0 _ Hr
                  (Rdist_nonneg x_min y_min x_0 y_0) Hs Hb).
    lra. }
  rewrite P. reflexivity.
Qed.

Lemma data_cell_negative_intensity_witness :
  0 < / 2 /\ -100 < 100 /\ -80 < 80 /\ 0 < 10 /\ -5 <= 0 /\ -1 < 0 /\
  data_cell (Fin (-100)) (Fin 100) (Fin (-80)) (Fin 80) (Fin (/ 2))
    (Pars (Fin 0) (Fin 0) (Fin (-5)) (Fin 10) (Fin (-1)))
    (fun _ _ => 1%nat) (fun _ => Fin (/ 2)) (fun _ => Fin (/ 4)) fresh_state
  = None.
Proof.
  split; [lra |]. split; [lra |]. split; [lra |].
  split; [lra |]. split; [lra |]. split; [lra |].
  apply (data_cell_negative_intensity (-100) 100 (-80) 80 (/ 2) 0 0 (-5) 10 (-1));
    lra.
Defined.

End Refusal.

(** The same on binary64, on the two-by-two grid. *)
Example data_cell_float_negative_intensity :
  data_cell (T := float) 0%float 1%float 0%float 1%float 0.5%float
    (Pars 0 0 (-5) 10 (-1))%float
    (fun _ _ => 1%nat) (fun _ => 0.875%float) (fun _ => 0.125%float)
    (Notebook [] ∅)
  = None.
Proof. vm_compute. reflexivity. Qed.

(** ** The fit configuration *)

Section DictFacts.
Context {V : Type}.
Implicit Types (a b c m : gmap string V) (l : list (string * V)).

Lemma update_all_union l m :
  NoDup l.*1 ->
  foldl (fun m kv => <[kv.1 := kv.2]> m) m l = list_to_map l ∪ m.
Proof.
  revert m. induction l as [| [k v] l IH]; intros m ND.
  - cbn. symmetry. apply (left_id_L ∅ (∪)).
  - cbn in ND. apply NoDup_cons in ND as [Hk ND].
    cbn [foldl list_to_map foldr fst snd]. rewrite IH by exact ND.
    rewrite <- insert_union_l.
    symmetry. apply insert_union_r. apply not_elem_of_list_to_map_1. exact Hk.
Qed.

Lemma items_to_map l a : l ≡ₚ map_to_list a -> NoDup l.*1 /\ list_to_map l = a.
Proof.
  intros P. split.
  - rewrite P. apply NoDup_fst_map_to_list.
  - rewrite <- (list_to_map_to_list a). apply list_to_map_proper; [| exact P].
    rewrite P. apply NoDup_fst_map_to_list.
Qed.

(** X16: [dict(a.items() + b.items() + c.items())], as the fit cell builds
    [pars], is the union of the three dicts in which [c] takes precedence
    over [b] and [b] over [a], in whatever order each dict lists its items:
    a key is looked up in [c], then in [b], then in [a]. *)
Theorem dict_of_items_merge a b c (la lb lc : list (string * V)) :
  la ≡ₚ map_to_list a -> lb ≡ₚ map_to_list b -> lc ≡ₚ map_to_list c ->
  dict_of_items (la ++ lb ++ lc) = c ∪ (b ∪ a) /\
  forall k : string,
    dict_of_items (la ++ lb ++ lc) !! k
    = match c !! k with
      | Some v => Some v
      | None => match b !! k with
                | Some v => Some v
                | None => a !! k
                end
      end.
Proof.
  intros Pa Pb Pc.
  destruct (items_to_map la a Pa) as [Na Ea].
  destruct (items_to_map lb b Pb) as [Nb Eb].
  destruct (items_to_map lc c Pc) as [Nc Ec].
  assert (E : dict_of_items (la ++ lb ++ lc) = c ∪ (b ∪ a)).
  { unfold dict_of_items. rewrite !foldl_app.
    rewrite !update_all_union by assumption.
    rewrite Ea, Eb, Ec. rewrite (right_id_L ∅ (∪)). reflexivity. }
  split; [exact E |].
  intros k. rewrite E. rewrite !lookup_union.
  destruct (c !! k), (b !! k), (a !! k); reflexivity.
Qed.

End DictFacts.

Lemma dict_of_items_merge_witness :
  map_to_list (Fit.start_values (T := float)) ≡ₚ map_to_list Fit.start_values /\
  map_to_list (Fit.start_errors (T := float)) ≡ₚ map_to_list Fit.start_errors /\
  map_to_list (Fit.fixed_parameters (T := float))
    ≡ₚ map_to_list Fit.fixed_parameters /\
  Fit.pars (T := float)
  = Fit.fixed_parameters ∪ (Fit.start_errors ∪ Fit.start_values) /\
  forall k : string,
    Fit.pars (T := float) !! k
    = match Fit.fixed_parameters !! k with
      | Some v => Some v
      | None => match Fit.start_errors !! k with
                | Some v => Some v
                | None => Fit.start_values !! k
                end
      end.
Proof.
  split; [reflexivity |]. split; [reflexivity |]. split; [reflexivity |].
  apply (dict_of_items_merge (V := pyval float)
           Fit.start_values Fit.start_errors Fit.fixed_parameters);
    reflexivity.
Defined.
